(** * Sidecar reconciliation (Rename-workv26.py): model and properties

    A shallow embedding of the matching core of [Rename-workv26.py]:
    [levenshtein_distance], [common_prefix_len], [is_matching_title],
    [parse_duplicate_number], [find_misnamed_json], [custom_media_sort]
    and the per-directory body of [process_directory].

    Modelling conventions.
    - A Python [str] is a [string]; a character is a code point below 256
      (Latin-1), so [lower], [strip] and the regular-expression classes are
      the restrictions of Python's Unicode versions to that range.
    - Python [int] is [Z] (or [nat] for lengths and counts); Python [float]
      is an IEEE-754 binary64 value, [spec_float] with precision 53, and
      [int(n * x)] is computed on it, rounding included.
    - [used_jsons] is a [gset string]; the title cache is a
      [gmap string string]; the file system is a [gmap] from paths to
      contents, on a case-sensitive POSIX file system, where [os.rename]
      to a free path fails only if the source is gone.
    - An exception that escapes a function is the left summand of its
      [result].
    - [fnmatch], [os.path.splitext] and [os.path.join] follow the Python
      library on POSIX; logging is kept as the list of the events that
      matter (renames, warnings, embed calls).  [embed_metadata] is an
      opaque call: what it does to the media file is not followed. *)

From Stdlib Require Import ZArith List Ascii String Bool Lia Sorted.
From Stdlib Require Import Floats.SpecFloat.
From stdpp Require Import base decidable option list gmap strings.

Import ListNotations.
Local Open Scope string_scope.
Local Open Scope Z_scope.

(** ** Python strings *)

Module Str.

Definition code (c : ascii) : N := N_of_ascii c.

Definition in_range (lo hi : N) (c : ascii) : bool :=
  ((lo <=? code c) && (code c <=? hi))%N.

(** [str.lower] on one code point below 256: A-Z and the Latin-1 capitals
    U+00C0..U+00DE, except the multiplication sign U+00D7, move up by 32. *)
Definition lower_char (c : ascii) : ascii :=
  if in_range 65 90 c || (in_range 192 222 c && negb (code c =? 215)%N)
  then ascii_of_N (code c + 32)
  else c.

Fixpoint lower (s : string) : string :=
  match s with
  | EmptyString => EmptyString
  | String c s' => String (lower_char c) (lower s')
  end.

(** [str.isspace] on one code point below 256. *)
Definition is_space (c : ascii) : bool :=
  in_range 9 13 c || in_range 28 32 c || (code c =? 133)%N || (code c =? 160)%N.

Definition is_digit (c : ascii) : bool := in_range 48 57 c.

Fixpoint lstrip (s : string) : string :=
  match s with
  | String c s' => if is_space c then lstrip s' else s
  | EmptyString => EmptyString
  end.

Fixpoint rev_onto (s acc : string) : string :=
  match s with
  | EmptyString => acc
  | String c s' => rev_onto s' (String c acc)
  end.

Definition rev (s : string) : string := rev_onto s EmptyString.

Definition rstrip (s : string) : string := rev (lstrip (rev s)).

(** [str.strip()] with no argument. *)
Definition strip (s : string) : string := rstrip (lstrip s).

(** [s[:n]] for [0 <= n]. *)
Fixpoint take (n : nat) (s : string) : string :=
  match n, s with
  | S n', String c s' => String c (take n' s')
  | _, _ => EmptyString
  end.

Fixpoint drop (n : nat) (s : string) : string :=
  match n, s with
  | S n', String _ s' => drop n' s'
  | _, _ => s
  end.

Fixpoint startswith (s p : string) : bool :=
  match p, s with
  | EmptyString, _ => true
  | String a p', String b s' => Ascii.eqb a b && startswith s' p'
  | String _ _, EmptyString => false
  end.

(** [s.endswith(p)]. *)
Definition endswith (s p : string) : bool :=
  (String.length p <=? String.length s)%nat
  && String.eqb (drop (String.length s - String.length p) s) p.

Definition len (s : string) : Z := Z.of_nat (String.length s).

(** [min(a, b)] on two strings: the lexicographically smaller one by code
    points, the first argument when they are equal. *)
Definition min (a b : string) : string :=
  if String.ltb b a then b else a.

End Str.

(** ** Python floats (binary64) *)

Module Float.

Definition prec : Z := 53.
Definition emax : Z := 1024.

(** [float(n)] for an [int] in the range of binary64. *)
Definition of_int (n : Z) : spec_float := binary_normalize prec emax n 0 false.

Definition mul : spec_float -> spec_float -> spec_float := SFmul prec emax.

(** The literal [n/d] written in decimal, e.g. [0.85 = dec 85 100]: the
    binary64 value nearest to the rational. *)
Definition dec (n d : Z) : spec_float := SFdiv prec emax (of_int n) (of_int d).

Inductive exn := ZeroDivisionError | ValueError | OverflowError.

(** [int(x)]: truncation toward zero; [nan] and the infinities raise. *)
Definition to_int (x : spec_float) : exn + Z :=
  match x with
  | S754_zero _ => inr 0
  | S754_infinity _ => inl OverflowError
  | S754_nan => inl ValueError
  | S754_finite s m e =>
      let a := if (0 <=? e) then Z.shiftl (Zpos m) e else Z.shiftr (Zpos m) (- e) in
      inr (if s then - a else a)
  end.

(** [int(n * x)] for an [int] n and a finite literal x: no exception can
    escape when [x] is finite and [n] is a length. *)
Definition int_mul (n : Z) (x : spec_float) : exn + Z := to_int (mul (of_int n) x).

Definition int_mul_total (n : Z) (x : spec_float) : Z :=
  match int_mul n x with inr z => z | inl _ => 0 end.

End Float.

(** ** FuzzyTitleMatcher *)

(** One row of the two-row dynamic program: [prev] is the previous row from
    column [j] on, [last] is [current_row[j]]. *)
Fixpoint lev_row (c1 : ascii) (s2 : string) (prev : list nat) (last : nat) : list nat :=
  match s2, prev with
  | String c2 s2', pj :: ((pj1 :: _) as prev') =>
      let insertions := S pj1 in
      let deletions := S last in
      let substitutions := (pj + (if Ascii.eqb c1 c2 then 0 else 1))%nat in
      let v := Nat.min (Nat.min insertions deletions) substitutions in
      v :: lev_row c1 s2' prev' v
  | _, _ => []
  end.

Fixpoint lev_rows (s1 s2 : string) (i : nat) (previous_row : list nat) : list nat :=
  match s1 with
  | EmptyString => previous_row
  | String c1 s1' =>
      let current_row := S i :: lev_row c1 s2 previous_row (S i) in
      lev_rows s1' s2 (S i) current_row
  end.

Definition levenshtein_distance (s1 s2 : string) : nat :=
  let '(s1, s2) :=
    if (String.length s1 <? String.length s2)%nat then (s2, s1) else (s1, s2) in
  if (String.length s2 =? 0)%nat then String.length s1
  else List.last (lev_rows s1 s2 0 (seq 0 (S (String.length s2)))) 0%nat.

(** [sum(1 for x, y in zip(a, b) if x == y)]. *)
Fixpoint common_prefix_len (a b : string) : nat :=
  match a, b with
  | String x a', String y b' =>
      ((if Ascii.eqb x y then 1 else 0) + common_prefix_len a' b')%nat
  | _, _ => 0%nat
  end.

Definition is_matching_title (title expected_title expected_ext : string) : bool :=
  let t := Str.lower title in
  let e := Str.lower expected_title in
  let dist := Z.of_nat (levenshtein_distance t e) in
  let cp_len := Z.of_nat (common_prefix_len t e) in
  let len_diff := Z.abs (Str.len t - Str.len e) in
  if 30 <=? Str.len e then
    let max_dist := Float.int_mul_total (Str.len e) (Float.dec 15 100) in
    let max_len_diff := Float.int_mul_total (Str.len e) (Float.dec 25 100) in
    let min_cp := Float.int_mul_total (Str.len e) (Float.dec 85 100) in
    if negb (Str.endswith t (Str.lower expected_ext)) then false
    else (dist <=? max_dist) && (min_cp <=? cp_len) && (len_diff <=? max_len_diff)
  else
    if negb (Str.endswith t (Str.lower expected_ext)) then false
    else (dist <=? Z.max 2 len_diff)
         && (Float.int_mul_total (Str.len (Str.min t e)) (Float.dec 85 100) <=? cp_len).

(** ** NameParser *)

Definition newline : ascii := ascii_of_N 10.

Fixpoint span_digits (s : string) : string * string :=
  match s with
  | String c s' =>
      if Str.is_digit c then let '(ds, r) := span_digits s' in (String c ds, r)
      else (EmptyString, s)
  | EmptyString => (EmptyString, EmptyString)
  end.

(** [$] without MULTILINE: the end of the string, or just before a newline
    that ends the string. *)
Definition at_dollar (s : string) : bool :=
  match s with
  | EmptyString => true
  | String c EmptyString => Ascii.eqb c newline
  | _ => false
  end.

(** The group [(\(\d+\))] followed by [$] at the current position. *)
Definition match_group (s : string) : option string :=
  match s with
  | String c s1 =>
      if Ascii.eqb c "(" then
        match span_digits s1 with
        | (String d ds, String c' r) =>
            if Ascii.eqb c' ")" && at_dollar r
            then Some ("(" ++ String d ds ++ ")")
            else None
        | _ => None
        end
      else None
  | EmptyString => None
  end.

(** The tail [(\(\d+\))?$] at the current position: the optional group is
    tried first; the result is group 2, or [None] for an absent group. *)
Definition match_tail (s : string) : option (option string) :=
  match match_group s with
  | Some g => Some (Some g)
  | None => if at_dollar s then Some None else None
  end.

(** [re.match(r'^(.*?)(\(\d+\))?$', name)]: the lazy group 1 grows one
    character at a time ([.] excludes the newline) until the tail matches. *)
Fixpoint re_match_dup (s : string) : option (string * option string) :=
  match match_tail s with
  | Some g2 => Some (EmptyString, g2)
  | None =>
      match s with
      | String c s' =>
          if Ascii.eqb c newline then None
          else match re_match_dup s' with
               | Some (g1, g2) => Some (String c g1, g2)
               | None => None
               end
      | EmptyString => None
      end
  end.

Definition parse_duplicate_number (name : string) : string * string :=
  match re_match_dup name with
  | Some (g1, g2) => (Str.strip g1, match g2 with Some g => g | None => "" end)
  | None => (name, "")
  end.

(** ** os.path (POSIX) *)

Module Path.

(** [s.rfind(c)] as the number of characters before the last [c]. *)
Fixpoint rfind (c : ascii) (s : string) : option nat :=
  match s with
  | EmptyString => None
  | String x s' =>
      match rfind c s' with
      | Some k => Some (S k)
      | None => if Ascii.eqb x c then Some 0%nat else None
      end
  end.

Fixpoint all_dots (s : string) : bool :=
  match s with
  | EmptyString => true
  | String c s' => Ascii.eqb c "." && all_dots s'
  end.

(** [os.path.splitext]: the extension starts at the last dot of the last
    path component, unless only dots precede it in that component. *)
Definition splitext (p : string) : string * string :=
  match rfind "." p with
  | None => (p, "")
  | Some dotIndex =>
      let filenameIndex :=
        match rfind "/" p with Some k => S k | None => 0%nat end in
      if (filenameIndex <=? dotIndex)%nat
         && negb (all_dots (Str.take (dotIndex - filenameIndex) (Str.drop filenameIndex p)))
      then (Str.take dotIndex p, Str.drop dotIndex p)
      else (p, "")
  end.

(** [os.path.join(a, b)]. *)
Definition join (a b : string) : string :=
  if Str.startswith b "/" then b
  else if String.eqb a "" || Str.endswith a "/" then a ++ b
  else a ++ "/" ++ b.

End Path.

Definition media_extensions : list string :=
  [".jpg"; ".jpeg"; ".png"; ".gif"; ".bmp"; ".tiff"; ".heic"; ".heif";
   ".mp4"; ".mov"; ".avi"].

Definition is_media_file (filename : string) : bool :=
  bool_decide (Str.lower (snd (Path.splitext filename)) ∈ media_extensions).

(** ** fnmatch *)

Module Fnmatch.

Inductive item := Single (c : ascii) | Range (lo hi : ascii).

Inductive tok := Star | Any | Class (neg : bool) (items : list item) | Lit (c : ascii).

(** The characters up to the next [']'] and how many were read, the
    bracket included. *)
Fixpoint until_close (s : string) : option (string * nat) :=
  match s with
  | EmptyString => None
  | String c s' =>
      if Ascii.eqb c "]" then Some (EmptyString, 1%nat)
      else match until_close s' with
           | Some (b, n) => Some (String c b, S n)
           | None => None
           end
  end.

(** After an opening bracket: an optional [!], then a [']'] in first place
    belongs to the set, then everything up to the closing bracket. *)
Definition close_bracket (rest : string) : option (bool * string * nat) :=
  let '(neg, r, k) :=
    match rest with
    | String "!" r => (true, r, 1%nat)
    | _ => (false, rest, 0%nat)
    end in
  match r with
  | String "]" r' =>
      match until_close r' with
      | Some (b, n) => Some (neg, String "]" b, (k + 1 + n)%nat)
      | None => None
      end
  | _ =>
      match until_close r with
      | Some (b, n) => Some (neg, b, (k + n)%nat)
      | None => None
      end
  end.

(** The members of a set: [x-y] is a range when a character follows the
    hyphen, anything else stands for itself. *)
Fixpoint items (body : list ascii) : list item :=
  match body with
  | [] => []
  | x :: rest =>
      match rest with
      | h :: y :: rest' =>
          if Ascii.eqb h "-" then Range x y :: items rest' else Single x :: items rest
      | _ => Single x :: items rest
      end
  end.

(** [translate]: [skip] counts the characters of a set still to pass. *)
Fixpoint tokens (pat : string) (skip : nat) : list tok :=
  match pat with
  | EmptyString => []
  | String c rest =>
      match skip with
      | S k => tokens rest k
      | O =>
          if Ascii.eqb c "*" then Star :: tokens rest 0
          else if Ascii.eqb c "?" then Any :: tokens rest 0
          else if Ascii.eqb c "[" then
            match close_bracket rest with
            | Some (neg, body, n) =>
                Class neg (items (list_ascii_of_string body)) :: tokens rest n
            | None => Lit "[" :: tokens rest 0
            end
          else Lit c :: tokens rest 0
      end
  end.

Definition in_item (c : ascii) (i : item) : bool :=
  match i with
  | Single x => Ascii.eqb c x
  | Range lo hi => ((Str.code lo <=? Str.code c) && (Str.code c <=? Str.code hi))%N
  end.

Definition accepts (t : tok) (c : ascii) : bool :=
  match t with
  | Star | Any => true
  | Lit x => Ascii.eqb c x
  | Class neg its => xorb neg (existsb (in_item c) its)
  end.

(** The whole of [s] against the tokens; a star takes any run of
    characters, newlines included. *)
Fixpoint matches (ts : list tok) (s : string) : bool :=
  match ts with
  | [] => match s with EmptyString => true | _ => false end
  | Star :: ts' =>
      (fix star (s : string) : bool :=
         matches ts' s
         || match s with
            | EmptyString => false
            | String _ s' => star s'
            end) s
  | t :: ts' =>
      match s with
      | String c s' => accepts t c && matches ts' s'
      | EmptyString => false
      end
  end.

(** [fnmatch.fnmatch(name, pat)] where [os.path.normcase] is the identity. *)
Definition fnmatch (name pat : string) : bool := matches (tokens pat 0) name.

End Fnmatch.

(** ** Results of code that can raise *)

Definition result (A : Type) : Type := Float.exn + A.

Definition bind {A B : Type} (r : result A) (k : A -> result B) : result B :=
  match r with
  | inl e => inl e
  | inr a => k a
  end.

Notation "'try' x <- r 'in' k" := (bind r (fun x => k))
  (at level 10, x name, r at level 100, k at level 200).

(** ** CandidateGenerator and the search of one media file *)

(** A candidate of the pattern pass: [(json_path, title, dist)]. *)
Definition candidate : Type := string * string * nat.

(** A loop body either leaves the function with a path or goes on. *)
Inductive flow (A : Type) : Type :=
| Return (json_path : string)
| Next (a : A).
Arguments Return {A} json_path.
Arguments Next {A} a.

Definition patterns (base_name media_ext num_suffix : string)
    (suffix_variants : list string) : list string :=
  flat_map (fun suffix =>
    [ base_name ++ media_ext ++ "." ++ suffix ++ num_suffix ++ ".json";
      base_name ++ media_ext ++ "." ++ suffix ++ ".json";
      base_name ++ "." ++ suffix ++ num_suffix ++ ".json";
      base_name ++ "." ++ suffix ++ ".json" ]) suffix_variants
  ++ [ base_name ++ media_ext ++ ".*metadata" ++ num_suffix ++ "*.json";
       base_name ++ media_ext ++ ".*metadata*.json";
       base_name ++ media_ext ++ ".*.json";
       base_name ++ ".*metadata" ++ num_suffix ++ "*.json";
       base_name ++ ".*metadata*.json";
       base_name ++ ".*.json" ].

(** [range(start, stop, -step)] for [1 <= step]. *)
Definition range_down (start stop step : Z) : list Z :=
  let n := if stop <? start then (start - stop - 1) / step + 1 else 0 in
  map (fun i => start - Z.of_nat i * step) (seq 0 (Z.to_nat n)).

(** The prefix lengths of one truncation sweep over a name of length [n]. *)
Definition sweep_lengths (n : Z) (min_prefix_factor : spec_float)
    (step_divisor : Z) : result (list Z) :=
  try k <- Float.int_mul n min_prefix_factor in
  let min_prefix_length := Z.max 20 k in
  if step_divisor =? 0 then inl Float.ZeroDivisionError
  else
    let step := Z.max 1 ((n - min_prefix_length) / step_divisor) in
    inr (range_down n (min_prefix_length - 1) step).

Section Search.

(** The accept decision of the fuzzy matcher; [is_matching_title] in the
    program. *)
Variable accept : string -> string -> string -> bool.

Variables (dir_path base_name media_ext num_suffix : string).
Variable json_files : list string.
Variable json_titles : gmap string string.
Variable used_jsons : gset string.

Definition expected_title : string := base_name ++ media_ext.

Definition title_of (file : string) : string := default "" (json_titles !! file).

(** The files of one pattern, lines 173-183. *)
Fixpoint scan_pattern (pattern : string) (files : list string)
    (candidates : list candidate) : flow (list candidate) :=
  match files with
  | [] => Next candidates
  | file :: files' =>
      if Fnmatch.fnmatch (Str.lower file) (Str.lower pattern) then
        let json_path := Path.join dir_path file in
        if bool_decide (json_path ∈ used_jsons) then
          scan_pattern pattern files' candidates
        else
          let title := title_of file in
          let title_lower := Str.lower title in
          if String.eqb title_lower (Str.lower expected_title) then Return json_path
          else
            let dist := levenshtein_distance title_lower (Str.lower expected_title) in
            scan_pattern pattern files' (candidates ++ [(json_path, title, dist)])
      else scan_pattern pattern files' candidates
  end.

(** All patterns in order, lines 172-183. *)
Fixpoint scan_patterns (pats : list string) (candidates : list candidate)
    : flow (list candidate) :=
  match pats with
  | [] => Next candidates
  | pattern :: pats' =>
      match scan_pattern pattern json_files candidates with
      | Return p => Return p
      | Next candidates' => scan_patterns pats' candidates'
      end
  end.

(** The fuzzy pass over the gathered candidates, lines 185-187. *)
Fixpoint first_accepted (candidates : list candidate) : option string :=
  match candidates with
  | [] => None
  | (json_path, title, _) :: rest =>
      if accept title expected_title media_ext then Some json_path
      else first_accepted rest
  end.

(** The files of one truncated prefix, lines 195-204 and 212-221. *)
Fixpoint sweep_files (pattern : string) (files : list string) : option string :=
  match files with
  | [] => None
  | file :: files' =>
      if Fnmatch.fnmatch (Str.lower file) (Str.lower pattern) then
        let json_path := Path.join dir_path file in
        if bool_decide (json_path ∈ used_jsons) then sweep_files pattern files'
        else
          let title := title_of file in
          if String.eqb (Str.lower title) (Str.lower expected_title) then Some json_path
          else if accept title expected_title media_ext then Some json_path
          else sweep_files pattern files'
      else sweep_files pattern files'
  end.

(** One sweep over the prefixes of [name] of the given lengths. *)
Fixpoint sweep (name : string) (lengths : list Z) : option string :=
  match lengths with
  | [] => None
  | length :: lengths' =>
      let truncated_prefix := Str.take (Z.to_nat length) name in
      match sweep_files (truncated_prefix ++ "*.json") json_files with
      | Some p => Some p
      | None => sweep name lengths'
      end
  end.

Definition find_misnamed_json_with (suffix_variants : list string)
    (avg_len min_prefix_factor : spec_float) (step_divisor : Z)
    : result (option string) :=
  let full_prefix := base_name ++ media_ext in
  match scan_patterns (patterns base_name media_ext num_suffix suffix_variants) [] with
  | Return p => inr (Some p)
  | Next candidates =>
      match first_accepted candidates with
      | Some p => inr (Some p)
      | None =>
          try lengths <- sweep_lengths (Str.len base_name) min_prefix_factor step_divisor in
          match sweep base_name lengths with
          | Some p => inr (Some p)
          | None =>
              try lengths' <- sweep_lengths (Str.len full_prefix) min_prefix_factor step_divisor in
              inr (sweep full_prefix lengths')
          end
      end
  end.

End Search.

Definition find_misnamed_json : string -> string -> string -> string ->
    list string -> gmap string string -> gset string -> list string ->
    spec_float -> spec_float -> Z -> result (option string) :=
  find_misnamed_json_with is_matching_title.

(** The parameters of the run without pre-analysis, lines 440-447. *)
Definition default_suffix_variants : list string :=
  [ "supplemental-metadata"; "supplemental-metadat"; "supplemental-meta";
    "supplemental-met"; "supplemental-me"; "supplemental-m"; "supplemental-";
    "supplementa"; "supplement"; "supplemen"; "suppleme"; "supplem"; "supple";
    "suppl"; "supp"; "sup"; "su"; "s" ].

(** The core variants that pre-analysis always puts first, line 139. *)
Definition core_variants : list string :=
  [ "supplemental-metadata"; "metadata"; "suppl" ].

Definition factor_07 : spec_float := Float.dec 7 10.
Definition factor_075 : spec_float := Float.dec 75 100.
Definition avg_30 : spec_float := Float.of_int 30.

(** ** ReconciliationSession *)

(** [int(num_suffix.strip('()'))] on a suffix of the shape [(digits)]. *)
Definition strip_parens (s : string) : string :=
  let is_paren c := Ascii.eqb c "(" || Ascii.eqb c ")" in
  let lstrip := fix go (s : string) : string :=
    match s with
    | String c s' => if is_paren c then go s' else s
    | EmptyString => EmptyString
    end in
  Str.rev (lstrip (Str.rev (lstrip s))).

Fixpoint int_of_digits (s : string) (acc : Z) : Z :=
  match s with
  | EmptyString => acc
  | String c s' => int_of_digits s' (10 * acc + (Z.of_N (Str.code c) - 48))
  end.

Definition sort_key : Type := bool * Z * string.

Definition custom_media_sort (filename : string) : sort_key :=
  let media_name := fst (Path.splitext filename) in
  let num_suffix := snd (parse_duplicate_number media_name) in
  let has_dup := negb (String.eqb num_suffix "") in
  let dup_num := if has_dup then int_of_digits (strip_parens num_suffix) 0 else 0 in
  (has_dup, dup_num, filename).

(** Tuple comparison, [False < True]. *)
Definition key_ltb (a b : sort_key) : bool :=
  let '(a1, a2, a3) := a in
  let '(b1, b2, b3) := b in
  if Bool.eqb a1 b1 then
    if a2 =? b2 then String.ltb a3 b3 else a2 <? b2
  else negb a1.

(** [sorted(l, key=f)]: the stable sort by key. *)
Fixpoint insert_by (f : string -> sort_key) (x : string) (l : list string) : list string :=
  match l with
  | [] => [x]
  | y :: l' => if key_ltb (f y) (f x) then y :: insert_by f x l' else x :: l
  end.

Definition sorted (f : string -> sort_key) (l : list string) : list string :=
  foldr (insert_by f) [] l.

(** What the session sees of a file: a sidecar that parses, with or
    without a title field, or anything else. *)
Inductive content :=
| Json (title : option string)
| Opaque.

(** [get_json_title]: the title, or [''] when the field is absent or the
    file cannot be read or parsed. *)
Definition get_json_title (fs : gmap string content) (json_path : string) : string :=
  match fs !! json_path with
  | Some (Json (Some title)) => title
  | _ => ""
  end.

Definition load_json_titles (fs : gmap string content) (dir_path : string)
    (json_files : list string) : gmap string string :=
  foldl (fun cache jf => <[jf := get_json_title fs (Path.join dir_path jf)]> cache)
        ∅ json_files.

(** [os.rename(src, dst)] where [dst] is free: fails when [src] is gone. *)
Definition os_rename (fs : gmap string content) (src dst : string)
    : option (gmap string content) :=
  match fs !! src with
  | Some c => Some (<[dst := c]> (delete src fs))
  | None => None
  end.

(** What the session does that can be observed from outside. *)
Inductive event :=
| WarnPreferredExists (json_path : string)
| Renamed (json_path preferred_json_path : string)
| RenameError (json_path : string)
| WouldRename (json_path preferred_json_path : string)
| EmbedMetadata (media_path json_path : string) (dry_run create_backup : bool)
| WarnNoJson (media_path : string).

(** What was decided for one media file: the path the search returned, the
    canonical path, and how the body of the loop was left. *)
Inductive outcome :=
| Matched (media_path json_path preferred_json_path : string) (skipped renamed : bool)
| NoMatch (media_path : string).

Record session := {
  fs : gmap string content;
  used_jsons : gset string;
  log : list event;
  outcomes : list outcome;
}.

Record tuning := {
  suffix_variants : list string;
  avg_len : spec_float;
  min_prefix_factor : spec_float;
  step_divisor : Z;
}.

Section Directory.

Variables (subdir : string) (json_files : list string).
Variable json_titles : gmap string string.
Variables (dry_run do_embed create_backup : bool).
Variable t : tuning.

Definition preferred_path (base_name num_suffix media_ext : string) : string :=
  Path.join subdir (base_name ++ num_suffix ++ media_ext ++ ".supplemental-metadata.json").

(** [if json_path:] holds for a path that is neither [None] nor empty. *)
Definition truthy (r : option string) : option string :=
  match r with
  | Some "" => None
  | _ => r
  end.

(** The body of the loop over the media files, lines 365-417. *)
Definition process_media (st : session) (file : string) : result session :=
  let full_media_path := Path.join subdir file in
  let '(media_name, media_ext) := Path.splitext file in
  let '(base_name, num_suffix) := parse_duplicate_number media_name in
  try r <- find_misnamed_json subdir base_name media_ext num_suffix json_files
             json_titles (used_jsons st) (suffix_variants t) (avg_len t)
             (min_prefix_factor t) (step_divisor t) in
  inr match truthy r with
  | Some json_path =>
      let preferred_json_path := preferred_path base_name num_suffix media_ext in
      let embed (renamed : bool) : list event :=
        if do_embed && renamed
        then [EmbedMetadata full_media_path preferred_json_path dry_run create_backup]
        else [] in
      let matched := Matched full_media_path json_path preferred_json_path in
      if negb (String.eqb json_path preferred_json_path) then
        if bool_decide (is_Some (fs st !! preferred_json_path)) then
          {| fs := fs st; used_jsons := used_jsons st;
             log := log st ++ [WarnPreferredExists json_path];
             outcomes := outcomes st ++ [matched true false] |}
        else if negb dry_run then
          match os_rename (fs st) json_path preferred_json_path with
          | Some fs' =>
              {| fs := fs'; used_jsons := {[preferred_json_path]} ∪ used_jsons st;
                 log := log st ++ [Renamed json_path preferred_json_path] ++ embed true;
                 outcomes := outcomes st ++ [matched false true] |}
          | None =>
              {| fs := fs st; used_jsons := used_jsons st;
                 log := log st ++ [RenameError json_path] ++ embed false;
                 outcomes := outcomes st ++ [matched false false] |}
          end
        else
          {| fs := fs st; used_jsons := {[json_path]} ∪ used_jsons st;
             log := log st ++ [WouldRename json_path preferred_json_path] ++ embed true;
             outcomes := outcomes st ++ [matched false true] |}
      else
        {| fs := fs st; used_jsons := {[json_path]} ∪ used_jsons st;
           log := log st ++ embed true;
           outcomes := outcomes st ++ [matched false true] |}
  | None =>
      {| fs := fs st; used_jsons := used_jsons st;
         log := log st ++ [WarnNoJson full_media_path];
         outcomes := outcomes st ++ [NoMatch full_media_path] |}
  end.

(** The loop: an exception of the search ends the run with the state
    reached so far. *)
Fixpoint process_files (media_files : list string) (st : session)
    : session * option Float.exn :=
  match media_files with
  | [] => (st, None)
  | file :: rest =>
      match process_media st file with
      | inl e => (st, Some e)
      | inr st' => process_files rest st'
      end
  end.

End Directory.

Definition is_json_file (f : string) : bool := Str.endswith (Str.lower f) ".json".

(** One iteration of the walk of [process_directory], lines 358-417: the
    directory [subdir] with the entries [files] on the file system [fs0]. *)
Definition process_directory (subdir : string) (files : list string)
    (fs0 : gmap string content) (dry_run : bool) (t : tuning)
    (do_embed create_backup : bool) : session * option Float.exn :=
  let media_files := sorted custom_media_sort (filter (fun f => Is_true (is_media_file f)) files) in
  let json_files := filter (fun f => Is_true (is_json_file f)) files in
  let json_titles := load_json_titles fs0 subdir json_files in
  process_files subdir json_files json_titles dry_run do_embed create_backup t
    media_files
    {| fs := fs0; used_jsons := ∅; log := []; outcomes := [] |}.

(** ** What the statements below speak about *)

(** The decisions of a session: [(media path, matched sidecar path,
    needsRename)] for every media file that found a sidecar. *)
Definition resolutions (os : list outcome) : list (string * string * bool) :=
  flat_map (fun o =>
    match o with
    | Matched media_path json_path preferred _ _ =>
        [(media_path, json_path, negb (String.eqb json_path preferred))]
    | NoMatch _ => []
    end) os.

(** The sidecar paths the search returned, one per matched media file. *)
Definition returned_paths (os : list outcome) : list string :=
  flat_map (fun o =>
    match o with
    | Matched _ json_path _ _ _ => [json_path]
    | NoMatch _ => []
    end) os.

(** The sidecar paths bound to a media file: the matches that were not
    given up because the canonical path was taken. *)
Definition assigned_paths (os : list outcome) : list string :=
  flat_map (fun o =>
    match o with
    | Matched _ json_path _ false _ => [json_path]
    | _ => []
    end) os.

(** The length of the common prefix in the strict sense: equal characters
    at equal positions up to the first mismatch. *)
Fixpoint strict_prefix_len (a b : string) : nat :=
  match a, b with
  | String x a', String y b' =>
      if Ascii.eqb x y then S (strict_prefix_len a' b') else 0%nat
  | _, _ => 0%nat
  end.

Fixpoint has_newline (s : string) : bool :=
  match s with
  | EmptyString => false
  | String c s' => Ascii.eqb c newline || has_newline s'
  end.

Fixpoint all_digits (s : string) : bool :=
  match s with
  | EmptyString => true
  | String c s' => Str.is_digit c && all_digits s'
  end.

(** [name] without the line break that may end it. *)
Fixpoint chomp (s : string) : string :=
  match s with
  | EmptyString => EmptyString
  | String c s' =>
      match s' with
      | EmptyString => if Ascii.eqb c newline then EmptyString else s
      | String _ _ => String c (chomp s')
      end
  end.

(** [name] ends with a parenthesized integer: [name = r ++ "(" ++ ds ++ ")"]. *)
Definition ends_with_dup (name r ds : string) : Prop :=
  ds <> "" /\ all_digits ds = true /\ name = r ++ "(" ++ ds ++ ")".

(** The split as section 4.1 words it: a trailing [(N)] is cut off and the
    remainder loses its trailing whitespace; any other name is returned
    whole. *)
Definition documented_split (name : string) : string * string :=
  match Str.rev name with
  | String ")" r =>
      match span_digits r with
      | (String d ds, String "(" rest) =>
          (Str.rstrip (Str.rev rest), "(" ++ Str.rev (String d ds) ++ ")")
      | _ => (name, "")
      end
  | _ => (name, "")
  end.

(** The acceptance rule for short titles as section 4.2 words it, on the
    lowercased titles: the minimum is the one of the two lengths and the
    floor is the one of the exact product. *)
Definition documented_short_accepts (t e : string) : bool :=
  let dist := Z.of_nat (levenshtein_distance t e) in
  let len_diff := Z.abs (Str.len t - Str.len e) in
  (dist <=? Z.max 2 len_diff)
  && (85 * Z.min (Str.len t) (Str.len e) / 100 <=? Z.of_nat (strict_prefix_len t e)).

(** The test one candidate undergoes in a truncation sweep: its name fits
    the pattern, it is free, and its title is the expected one or is
    accepted by the matcher. *)
Definition probe (accept : string -> string -> string -> bool)
    (dir_path base_name media_ext : string) (json_titles : gmap string string)
    (used_jsons : gset string) (pattern file : string) : bool :=
  Fnmatch.fnmatch (Str.lower file) (Str.lower pattern)
  && negb (bool_decide (Path.join dir_path file ∈ used_jsons))
  && (String.eqb (Str.lower (title_of json_titles file))
                 (Str.lower (expected_title base_name media_ext))
      || accept (title_of json_titles file) (expected_title base_name media_ext) media_ext).

(** A directory entry: a name that does not start with the separator. *)
Definition entry_name (file : string) : Prop := Str.startswith file "/" = false.

(** The file is a free sidecar of the directory that carries the title. *)
Definition exact_title_hit (dir_path base_name media_ext : string)
    (json_titles : gmap string string) (used_jsons : gset string)
    (files : list string) (file : string) : Prop :=
  In file files /\ (Path.join dir_path file ∉ used_jsons) /\
  Str.lower (title_of json_titles file)
  = Str.lower (expected_title base_name media_ext).

(** The file is a free sidecar of the directory that the matcher accepts. *)
Definition accepted_hit (accept : string -> string -> string -> bool)
    (dir_path base_name media_ext : string)
    (json_titles : gmap string string) (used_jsons : gset string)
    (files : list string) (file : string) : Prop :=
  In file files /\ (Path.join dir_path file ∉ used_jsons) /\
  accept (title_of json_titles file) (expected_title base_name media_ext) media_ext
  = true.

(** A candidate of the pattern pass was built from a free sidecar. *)
Definition candidate_of_free_file (dir_path : string) (json_files : list string)
    (json_titles : gmap string string) (used_jsons : gset string)
    (c : candidate) : Prop :=
  exists file, In file json_files /\ c.1.1 = Path.join dir_path file /\
    (Path.join dir_path file ∉ used_jsons) /\ c.1.2 = title_of json_titles file.

(** The assignment set is the set of the bound sidecars, each bound once,
    all of them sidecars of the directory. *)
Definition bound_once (subdir : string) (json_files : list string)
    (st : session) : Prop :=
  NoDup (assigned_paths (outcomes st)) /\
  (forall p, p ∈ used_jsons st <-> p ∈ assigned_paths (outcomes st)) /\
  (forall p, p ∈ assigned_paths (outcomes st) ->
     p ∈ (Path.join subdir <$> json_files)).

(** ** Directories used in the examples *)

Definition default_tuning : tuning :=
  {| suffix_variants := default_suffix_variants; avg_len := avg_30;
     min_prefix_factor := factor_07; step_divisor := 20 |}.

Definition titled (title : string) : content := Json (Some title).

(** Two media files that share a title and two sidecars that carry it. *)
Definition twin_files : list string :=
  ["IMG_01(1).jpg"; "IMG_01.jpg"; "IMG_01.jpg.suppl.json"; "IMG_01.jpg.su.json"].

Definition twin_fs : gmap string content :=
  list_to_map
    [ ("d/IMG_01(1).jpg", Opaque); ("d/IMG_01.jpg", Opaque);
      ("d/IMG_01.jpg.suppl.json", titled "IMG_01.jpg");
      ("d/IMG_01.jpg.su.json", titled "IMG_01.jpg") ].

(** The canonical sidecar name of [IMG_01.jpg] is taken by a file without
    a title; the sidecar that carries the title has another name. *)
Definition taken_files : list string :=
  ["IMG_01.jpg"; "IMG_01(1).jpg"; "IMG_01.jpg.supplemental-metadata.json";
   "IMG_01.jpg.suppl.json"].

Definition taken_fs : gmap string content :=
  list_to_map
    [ ("d/IMG_01.jpg", Opaque); ("d/IMG_01(1).jpg", Opaque);
      ("d/IMG_01.jpg.supplemental-metadata.json", Json None);
      ("d/IMG_01.jpg.suppl.json", titled "IMG_01.jpg") ].

(** Two sidecars with truncated names: the first carries a title one
    letter off, the second the exact title. *)
Definition near_files : list string :=
  ["holiday_in_the_mount-a.json"; "holiday_in_the_mount-b.json"].

Definition near_titles : gmap string string :=
  list_to_map
    [ ("holiday_in_the_mount-a.json", "holiday_in_the_mountainz.jpg");
      ("holiday_in_the_mount-b.json", "holiday_in_the_mountains.jpg") ].

(** A sidecar under the canonical name of the duplicate [(1)] that carries
    the title of the first file. *)
Definition stale_files : list string :=
  [ "VID_20190814_173205_001.mp4"; "VID_20190814_173205_001(1).mp4";
    "VID_20190814_173205_001(1).mp4.supplemental-metadata.json" ].

Definition stale_fs : gmap string content :=
  list_to_map
    [ ("d/VID_20190814_173205_001.mp4", Opaque);
      ("d/VID_20190814_173205_001(1).mp4", Opaque);
      ("d/VID_20190814_173205_001(1).mp4.supplemental-metadata.json",
       titled "VID_20190814_173205_001.mp4") ].

Definition reject_all (title expected_title expected_ext : string) : bool := false.

(** A base name of 60 characters and a sidecar named after its first 44. *)
Definition long_base : string :=
  "2019-08-14_summer_holiday_in_the_mountains_with_the_family_x".

Definition long_sidecar : string :=
  "2019-08-14_summer_holiday_in_the_mountains_w~1.json".

Definition long_titles : gmap string string :=
  {[ long_sidecar := long_base ++ ".jpg" ]}.

(** ** Pre-analysis *)

(** [s.split('.')]. *)
Fixpoint split_dot (s : string) : list string :=
  match s with
  | EmptyString => [EmptyString]
  | String c s' =>
      if Ascii.eqb c "." then EmptyString :: split_dot s'
      else match split_dot s' with
           | p :: ps => String c p :: ps
           | [] => [String c EmptyString]
           end
  end.

(** ['.'.join(parts)]. *)
Fixpoint join_dot (parts : list string) : string :=
  match parts with
  | [] => EmptyString
  | p :: ps =>
      match ps with
      | [] => p
      | _ :: _ => p ++ "." ++ join_dot ps
      end
  end.

Definition extract_suffix (filename : string) : option string :=
  let '(base, ext) := Path.splitext filename in
  if String.eqb (Str.lower ext) ".json" then
    match split_dot base with
    | _ :: (_ :: _) as rest => Some (join_dot rest)
    | _ => None
    end
  else None.

(** A [Counter] as the list of its items in insertion order;
    [c[k] += 1]. *)
Fixpoint counter_incr (k : string) (c : list (string * nat)) : list (string * nat) :=
  match c with
  | [] => [(k, 1%nat)]
  | (k', n) :: c' =>
      if String.eqb k k' then (k', S n) :: c' else (k', n) :: counter_incr k c'
  end.

(** [c.most_common(n)]: the items by descending count, items of equal
    count in insertion order, cut after [n]. *)
Fixpoint insert_count (x : string * nat) (l : list (string * nat)) : list (string * nat) :=
  match l with
  | [] => [x]
  | y :: l' => if (x.2 <? y.2)%nat then y :: insert_count x l' else x :: l
  end.

Definition most_common (n : nat) (c : list (string * nat)) : list (string * nat) :=
  take n (foldr insert_count [] c).

(** [statistics.mean] of a non-empty list of [int]: the quotient of the
    exact sum by the count, as the nearest binary64 value. *)
Definition mean (l : list Z) : spec_float :=
  SFdiv Float.prec Float.emax (Float.of_int (foldr Z.add 0 l))
        (Float.of_int (Z.of_nat (length l))).

(** The suffixes counted in one directory, lines 123-130. *)
Definition count_suffixes (c : list (string * nat)) (files : list string)
    : list (string * nat) :=
  foldl (fun c jf =>
           match extract_suffix jf with
           | Some (String a s) => counter_incr (String a s) c
           | _ => c
           end)
        c (filter (fun f => Is_true (is_json_file f)) files).

(** [pre_analyze] on the walk of the tree, one list of file names per
    directory: the tuning it returns. *)
Definition pre_analyze (walk : list (list string)) : tuning :=
  let filename_lengths :=
    flat_map (fun files => map Str.len (take 1000 files)) walk in
  let json_suffixes := foldl count_suffixes [] walk in
  let avg_len :=
    match filename_lengths with
    | [] => Float.of_int 30
    | _ :: _ => mean filename_lengths
    end in
  let common_variants :=
    filter (fun s => s ∉ core_variants) (map fst (most_common 10 json_suffixes)) in
  let short := SFltb avg_len (Float.of_int 50) in
  {| suffix_variants := core_variants ++ common_variants;
     avg_len := avg_len;
     min_prefix_factor := if short then factor_07 else factor_075;
     step_divisor := if short then 15 else 10 |}.

(** ** Notions for the further properties *)

(** [c in s]. *)
Fixpoint contains (c : ascii) (s : string) : bool :=
  match s with
  | EmptyString => false
  | String x s' => Ascii.eqb x c || contains c s'
  end.


(** Every entry of a row of the dynamic program, from column [j] on, is
    related to its column. *)
Fixpoint row_rel (R : nat -> nat -> Prop) (j : nat) (row : list nat) : Prop :=
  match row with
  | [] => True
  | v :: row' => R j v /\ row_rel R (S j) row'
  end.

(** The distance of two numbers. *)
Definition gap (i j : nat) : nat := ((i - j) + (j - i))%nat.

(** The entry for the prefixes of lengths [i] and [j] lies between the
    difference and the larger of the two lengths. *)
Definition within (i j v : nat) : Prop := (gap i j <= v <= Nat.max i j)%nat.

(** The entry for the prefixes of lengths [i] and [j] of one and the same
    string. *)
Definition on_diagonal (i j v : nat) : Prop := v = gap i j.

(** A candidate of the pattern pass was built from a free sidecar whose
    name fits one of the patterns. *)
Definition candidate_fits (dir_path : string) (json_files : list string)
    (json_titles : gmap string string) (used_jsons : gset string)
    (pats : list string) (c : candidate) : Prop :=
  exists file pattern,
    In file json_files /\ In pattern pats /\
    Fnmatch.fnmatch (Str.lower file) (Str.lower pattern) = true /\
    (Path.join dir_path file ∉ used_jsons) /\
    c.1.1 = Path.join dir_path file /\ c.1.2 = title_of json_titles file.


(** The media file an outcome is about. *)
Definition media_of (o : outcome) : string :=
  match o with
  | Matched media_path _ _ _ _ => media_path
  | NoMatch media_path => media_path
  end.

(** An event a simulation may log: no rename, done or failed, and no embed
    call without the dry-run flag. *)
Definition simulated (e : event) : Prop :=
  match e with
  | Renamed _ _ | RenameError _ => False
  | EmbedMetadata _ _ dry_run _ => dry_run = true
  | WarnPreferredExists _ | WouldRename _ _ | WarnNoJson _ => True
  end.

(** The order of the first two components of the sort key: files without
    a duplicate suffix first, then by duplicate number. *)
Definition rank_le (a b : sort_key) : Prop :=
  (a.1.1 = false /\ b.1.1 = true) \/ (a.1.1 = b.1.1 /\ a.1.2 <= b.1.2).

(** No character of the string is whitespace. *)
Fixpoint no_space (s : string) : bool :=
  match s with
  | EmptyString => true
  | String c s' => negb (Str.is_space c) && no_space s'
  end.

(** * Properties *)

#[local] Arguments append !s1 s2 : simpl nomatch.

(** ** The model on small inputs *)

Example levenshtein_kitten : levenshtein_distance "kitten" "sitting" = 3%nat.
Proof. reflexivity. Qed.

Example parse_duplicate_number_samples :
  parse_duplicate_number "IMG_01(1)" = ("IMG_01", "(1)") /\
  parse_duplicate_number "IMG_01" = ("IMG_01", "") /\
  parse_duplicate_number "a(1)(2)" = ("a(1)", "(2)") /\
  parse_duplicate_number "a(1)b" = ("a(1)b", "").
Proof. repeat split; reflexivity. Qed.

Example splitext_samples :
  Path.splitext "IMG_01(1).jpg" = ("IMG_01(1)", ".jpg") /\
  Path.splitext ".hidden" = (".hidden", "") /\
  Path.splitext "archive.tar.gz" = ("archive.tar", ".gz").
Proof. repeat split; reflexivity. Qed.

Example fnmatch_samples :
  Fnmatch.fnmatch "img_01.jpg.suppl.json" "img_01.jpg.*.json" = true /\
  Fnmatch.fnmatch "img_01.jpg.suppl.json" "img_01.*metadata*.json" = false /\
  Fnmatch.fnmatch "img_01(1).json" "img_0[0-9]?1?.json" = true /\
  Fnmatch.fnmatch "a[c" "a[c" = true.
Proof. repeat split; reflexivity. Qed.

(** Files without a duplicate suffix come first, then the duplicates by
    number. *)
Example sorted_samples :
  sorted custom_media_sort ["b(2).jpg"; "a(10).jpg"; "c.jpg"; "a.jpg"]
  = ["a.jpg"; "c.jpg"; "b(2).jpg"; "a(10).jpg"].
Proof. reflexivity. Qed.

(** [int(90 * 0.7)] is 62: the binary64 product is just below 63. *)
Example int_mul_rounds :
  Float.int_mul 90 factor_07 = inr 62 /\ Float.int_mul 60 factor_07 = inr 42.
Proof. split; reflexivity. Qed.

(** ** Strings *)

Lemma append_nil_r (s : string) : s ++ "" = s.
Proof. induction s as [|c s IH]; simpl; [reflexivity | now rewrite IH]. Qed.

Lemma append_cancel_l (a b b' : string) : a ++ b = a ++ b' -> b = b'.
Proof.
  induction a as [|c a IH]; simpl; intros H; [exact H |].
  injection H as H. now apply IH.
Qed.

Lemma lower_nil_inv (s : string) : Str.lower s = "" -> s = "".
Proof. destruct s; simpl; [reflexivity | discriminate]. Qed.

Lemma append_nil_inv (a b : string) : a ++ b = "" -> a = "" /\ b = "".
Proof. destruct a; simpl; [auto | discriminate]. Qed.

Lemma endswith_nil_l (p : string) : p <> "" -> Str.endswith "" p = false.
Proof. destruct p; [congruence | reflexivity]. Qed.

(** ** FuzzyTitleMatcher *)

(** For every length a title can have in practice the binary64 product
    is finite and its integer part is the floor of the exact product, so
    [int(n * 0.85)], [int(n * 0.15)] and [int(n * 0.25)] raise nothing. *)
Lemma int_mul_floor (n : nat) :
  (n < 4096)%nat ->
  Float.int_mul (Z.of_nat n) (Float.dec 85 100) = inr (85 * Z.of_nat n / 100) /\
  Float.int_mul (Z.of_nat n) (Float.dec 15 100) = inr (15 * Z.of_nat n / 100) /\
  Float.int_mul (Z.of_nat n) (Float.dec 25 100) = inr (25 * Z.of_nat n / 100).
Proof.
  intros Hn.
  pose (ok := fun n : nat =>
    match Float.int_mul (Z.of_nat n) (Float.dec 85 100),
          Float.int_mul (Z.of_nat n) (Float.dec 15 100),
          Float.int_mul (Z.of_nat n) (Float.dec 25 100) with
    | inr a, inr b, inr c =>
        (a =? 85 * Z.of_nat n / 100) && (b =? 15 * Z.of_nat n / 100)
        && (c =? 25 * Z.of_nat n / 100)
    | _, _, _ => false
    end).
  assert (Hall : forallb ok (seq 0 4096) = true) by (vm_compute; reflexivity).
  rewrite forallb_forall in Hall.
  specialize (Hall n (proj2 (in_seq 4096 0 n) (conj (Nat.le_0_l n) Hn))).
  unfold ok in Hall.
  destruct (Float.int_mul _ (Float.dec 85 100)) as [|a]; [discriminate |].
  destruct (Float.int_mul _ (Float.dec 15 100)) as [|b]; [discriminate |].
  destruct (Float.int_mul _ (Float.dec 25 100)) as [|c]; [discriminate |].
  apply andb_true_iff in Hall as [[Ha Hb]%andb_true_iff Hc].
  apply Z.eqb_eq in Ha, Hb, Hc. now subst.
Qed.

(** Both branches of [is_matching_title] pass the extension gate first. *)
Lemma is_matching_title_gate (title expected_title expected_ext : string) :
  Str.endswith (Str.lower title) (Str.lower expected_ext) = false ->
  is_matching_title title expected_title expected_ext = false.
Proof.
  intros Hends. unfold is_matching_title. rewrite Hends. simpl.
  now destruct (30 <=? Str.len (Str.lower expected_title)).
Qed.

Lemma is_matching_title_empty (expected_title expected_ext : string) :
  expected_ext <> "" -> is_matching_title "" expected_title expected_ext = false.
Proof.
  intros Hext. apply is_matching_title_gate. simpl.
  apply endswith_nil_l. intros H. now apply lower_nil_inv in H.
Qed.

(** C6. An observed title that does not end with the expected extension,
    compared without regard to case, is rejected by [is_matching_title]
    whatever the edit distance, the common prefix and the length
    difference are, also when the stems are equal.  (For an empty
    extension the premise cannot hold: every title ends with it.) *)
Theorem extension_gate_rejects (title expected_title expected_ext : string) :
  Str.endswith (Str.lower title) (Str.lower expected_ext) = false ->
  is_matching_title title expected_title expected_ext = false.
Proof. apply is_matching_title_gate. Qed.

(** A [.mov] title against a [.mp4] media file with the same stem. *)
Lemma extension_gate_rejects_mov :
  levenshtein_distance "clip" "clip" = 0%nat /\
  is_matching_title "CLIP.MOV" "clip.mp4" ".mp4" = false.
Proof.
  split; [reflexivity |].
  apply (extension_gate_rejects "CLIP.MOV" "clip.mp4" ".mp4"). reflexivity.
Defined.

(** C5. [common_prefix_len] counts every position at which the two strings
    agree, also the positions after the first mismatch: on [abxde] and
    [abyde] it gives 4, where the common prefix has length 2. *)
Theorem common_prefix_len_counts_past_mismatch :
  common_prefix_len "abxde" "abyde" = 4%nat /\
  strict_prefix_len "abxde" "abyde" = 2%nat.
Proof. split; reflexivity. Qed.

Lemma strict_prefix_le_common (a b : string) :
  (strict_prefix_len a b <= common_prefix_len a b)%nat.
Proof.
  revert b. induction a as [|x a IH]; intros [|y b]; simpl; try lia.
  destruct (Ascii.eqb x y); [specialize (IH b) |]; lia.
Qed.

(** C4. For the short titles [ab.jp.jpg] (observed) and [ab.jpg]
    (expected), which share the extension, the documented rule accepts:
    the distance 3 is within max(2, 3) and the common prefix 5 reaches
    floor(0.85 * min(9, 6)) = 5.  [is_matching_title] rejects, because it
    takes the length of the smaller string in dictionary order, here the
    longer one, and asks for a prefix of floor(0.85 * 9) = 7. *)
Theorem short_title_uses_dictionary_min :
  let t := "ab.jp.jpg" in
  let e := "ab.jpg" in
  Str.len e < 30 /\
  Str.endswith t ".jpg" = true /\
  common_prefix_len t e = strict_prefix_len t e /\
  documented_short_accepts t e = true /\
  Str.min t e = t /\
  Float.int_mul (Str.len (Str.min t e)) (Float.dec 85 100) = inr 7 /\
  is_matching_title t e ".jpg" = false.
Proof. vm_compute. repeat split; reflexivity. Qed.

(** ** The search of one media file *)

Section SearchFacts.

Variable accept : string -> string -> string -> bool.
Variables (dir_path base_name media_ext num_suffix : string).
Variable json_files : list string.
Variable json_titles : gmap string string.
Variable used_jsons : gset string.

Local Abbreviation expected := (expected_title base_name media_ext).
Local Abbreviation exact_hit :=
  (exact_title_hit dir_path base_name media_ext json_titles used_jsons).
Local Abbreviation fuzzy_hit :=
  (accepted_hit accept dir_path base_name media_ext json_titles used_jsons).
Local Abbreviation from_free_file :=
  (candidate_of_free_file dir_path json_files json_titles used_jsons).

Lemma scan_pattern_return pattern files cands p :
  scan_pattern dir_path base_name media_ext json_titles used_jsons
    pattern files cands = Return p ->
  exists file, exact_hit files file /\ p = Path.join dir_path file /\
    Fnmatch.fnmatch (Str.lower file) (Str.lower pattern) = true.
Proof.
  revert cands. induction files as [|file files IH]; simpl; intros cands H;
    [discriminate |].
  assert (Hrec : forall c,
    scan_pattern dir_path base_name media_ext json_titles used_jsons
      pattern files c = Return p ->
    exists f, exact_hit (file :: files) f /\ p = Path.join dir_path f /\
      Fnmatch.fnmatch (Str.lower f) (Str.lower pattern) = true).
  { intros c Hc. destruct (IH _ Hc) as (f & (Hin & Hfree & Ht) & Hp & Hm).
    exists f. repeat split; auto. now right. }
  destruct (Fnmatch.fnmatch (Str.lower file) (Str.lower pattern)) eqn:Hm;
    [| now apply Hrec in H].
  case_bool_decide as Hused; [now apply Hrec in H |].
  destruct (String.eqb _ _) eqn:Heq; [| now apply Hrec in H].
  injection H as <-. apply String.eqb_eq in Heq.
  exists file. repeat split; auto. now left.
Qed.

Lemma scan_pattern_next pattern files cands cands' :
  incl files json_files ->
  Forall from_free_file cands ->
  scan_pattern dir_path base_name media_ext json_titles used_jsons
    pattern files cands = Next cands' ->
  Forall from_free_file cands'.
Proof.
  revert cands. induction files as [|file files IH]; simpl; intros cands Hsub Hc H.
  - now injection H as <-.
  - assert (Hsub' : incl files json_files) by (intros x Hx; apply Hsub; now right).
    destruct (Fnmatch.fnmatch _ _); [| now apply (IH cands)].
    case_bool_decide as Hused; [now apply (IH cands) |].
    destruct (String.eqb _ _); [discriminate |].
    apply IH in H; auto.
    apply Forall_app. split; [assumption |]. constructor; [| constructor].
    exists file. repeat split; auto. apply Hsub. now left.
Qed.

Lemma scan_patterns_return pats cands p :
  scan_patterns dir_path base_name media_ext json_files json_titles used_jsons
    pats cands = Return p ->
  exists file pattern, exact_hit json_files file /\ p = Path.join dir_path file /\
    In pattern pats /\ Fnmatch.fnmatch (Str.lower file) (Str.lower pattern) = true.
Proof.
  revert cands. induction pats as [|pattern pats IH]; simpl; intros cands H;
    [discriminate |].
  destruct (scan_pattern _ _ _ _ _ pattern json_files cands) as [q | c] eqn:Hs.
  - injection H as <-. apply scan_pattern_return in Hs as (f & Hhit & Hp & Hm).
    exists f, pattern. split; [exact Hhit |]. split; [exact Hp |].
    split; [now left | exact Hm].
  - apply IH in H as (f & pat & Hhit & Hp & Hin & Hm).
    exists f, pat. split; [exact Hhit |]. split; [exact Hp |].
    split; [now right | exact Hm].
Qed.

Lemma scan_patterns_next pats cands cands' :
  Forall from_free_file cands ->
  scan_patterns dir_path base_name media_ext json_files json_titles used_jsons
    pats cands = Next cands' ->
  Forall from_free_file cands'.
Proof.
  revert cands. induction pats as [|pattern pats IH]; simpl; intros cands Hc H.
  - now injection H as <-.
  - destruct (scan_pattern _ _ _ _ _ pattern json_files cands) as [q | c] eqn:Hs;
      [discriminate |].
    apply (IH c); [| assumption].
    eapply scan_pattern_next; eauto. apply incl_refl.
Qed.

Lemma first_accepted_sound cands p :
  Forall from_free_file cands ->
  first_accepted accept base_name media_ext cands = Some p ->
  exists file, fuzzy_hit json_files file /\ p = Path.join dir_path file.
Proof.
  induction 1 as [|[[jp title] d] cands (f & Hin & Hjp & Hfree & Ht) _ IH];
    simpl; intros H; [discriminate |].
  simpl in Hjp, Ht.
  destruct (accept title _ media_ext) eqn:Ha; [| now apply IH].
  injection H as <-. exists f. subst. repeat split; auto.
Qed.

Lemma sweep_files_sound pattern files p :
  sweep_files accept dir_path base_name media_ext json_titles used_jsons
    pattern files = Some p ->
  exists file, (exact_hit files file \/ fuzzy_hit files file) /\
    p = Path.join dir_path file /\
    Fnmatch.fnmatch (Str.lower file) (Str.lower pattern) = true.
Proof.
  induction files as [|file files IH]; simpl; intros H; [discriminate |].
  assert (Hrec :
    sweep_files accept dir_path base_name media_ext json_titles used_jsons
      pattern files = Some p ->
    exists f, (exact_hit (file :: files) f \/ fuzzy_hit (file :: files) f) /\
      p = Path.join dir_path f /\
      Fnmatch.fnmatch (Str.lower f) (Str.lower pattern) = true).
  { intros Hc. destruct (IH Hc) as (f & Hhit & Hp & Hm).
    exists f. repeat split; auto.
    destruct Hhit as [(? & ? & ?) | (? & ? & ?)]; [left | right];
      repeat split; auto; now right. }
  destruct (Fnmatch.fnmatch (Str.lower file) (Str.lower pattern)) eqn:Hm; [| auto].
  case_bool_decide as Hused; [auto |].
  destruct (String.eqb _ _) eqn:Heq.
  - injection H as <-. apply String.eqb_eq in Heq.
    exists file. repeat split; auto. left. repeat split; auto. now left.
  - destruct (accept _ _ media_ext) eqn:Ha; [| auto].
    injection H as <-. exists file. repeat split; auto.
    right. repeat split; auto. now left.
Qed.

Lemma sweep_sound name lengths p :
  sweep accept dir_path base_name media_ext json_files json_titles used_jsons
    name lengths = Some p ->
  exists file, (exact_hit json_files file \/ fuzzy_hit json_files file) /\
    p = Path.join dir_path file.
Proof.
  induction lengths as [|l lengths IH]; simpl; intros H; [discriminate |].
  destruct (sweep_files _ _ _ _ _ _ _ json_files) as [q|] eqn:Hs; [| auto].
  injection H as <-. apply sweep_files_sound in Hs as (f & Hhit & Hp & _).
  now exists f.
Qed.

(** Whatever the search returns is the path of a free sidecar of the
    directory whose title is the expected one or is accepted. *)
Lemma find_sound sv al f d p :
  find_misnamed_json_with accept dir_path base_name media_ext num_suffix
    json_files json_titles used_jsons sv al f d = inr (Some p) ->
  exists file, (exact_hit json_files file \/ fuzzy_hit json_files file) /\
    p = Path.join dir_path file.
Proof.
  unfold find_misnamed_json_with.
  destruct (scan_patterns _ _ _ _ _ _ _ _) as [q | cands] eqn:Hs.
  - intros [= <-]. apply scan_patterns_return in Hs as (file & _ & Hhit & Hp & _).
    exists file. auto.
  - apply scan_patterns_next in Hs; [| constructor].
    destruct (first_accepted _ _ _ cands) as [q|] eqn:Hf.
    + intros [= <-]. apply (first_accepted_sound _ _ Hs) in Hf as (file & Hhit & Hp).
      exists file. auto.
    + destruct (sweep_lengths _ f d) as [e | ls]; simpl; [discriminate |].
      destruct (sweep _ _ _ _ _ _ _ base_name ls) as [q|] eqn:Hw.
      * intros [= <-]. now apply sweep_sound in Hw.
      * destruct (sweep_lengths _ f d) as [e | ls']; simpl; [discriminate |].
        intros [= H]. now apply sweep_sound in H.
Qed.

Lemma scan_pattern_hit pattern files cands file :
  In file files ->
  Fnmatch.fnmatch (Str.lower file) (Str.lower pattern) = true ->
  Path.join dir_path file ∉ used_jsons ->
  Str.lower (title_of json_titles file) = Str.lower expected ->
  exists file', exact_hit files file' /\
    scan_pattern dir_path base_name media_ext json_titles used_jsons
      pattern files cands = Return (Path.join dir_path file').
Proof.
  intros Hin Hm Hfree Ht. revert cands.
  induction files as [|x files IH]; [destruct Hin |]. intros cands.
  assert (Hrec : x <> file -> forall c, exists file', exact_hit (x :: files) file' /\
    scan_pattern dir_path base_name media_ext json_titles used_jsons
      pattern files c = Return (Path.join dir_path file')).
  { intros Hne c. destruct Hin as [-> | Hin]; [congruence |].
    destruct (IH Hin c) as (f' & (? & ? & ?) & Hs).
    exists f'. split; [| exact Hs]. repeat split; auto. now right. }
  destruct (string_dec x file) as [-> | Hne].
  - exists file. split; [repeat split; auto; now left |].
    simpl. rewrite Hm. rewrite bool_decide_eq_false_2 by assumption.
    unfold expected in Ht. now rewrite Ht, String.eqb_refl.
  - simpl. destruct (Fnmatch.fnmatch (Str.lower x) _) eqn:Hmx; [| now apply Hrec].
    case_bool_decide as Hused; [now apply Hrec |].
    destruct (String.eqb _ _) eqn:Heq; [| now apply Hrec].
    apply String.eqb_eq in Heq.
    exists x. split; [repeat split; auto; now left | reflexivity].
Qed.

Lemma scan_patterns_hit pats cands file pattern :
  In pattern pats -> In file json_files ->
  Fnmatch.fnmatch (Str.lower file) (Str.lower pattern) = true ->
  Path.join dir_path file ∉ used_jsons ->
  Str.lower (title_of json_titles file) = Str.lower expected ->
  exists file', exact_hit json_files file' /\
    scan_patterns dir_path base_name media_ext json_files json_titles used_jsons
      pats cands = Return (Path.join dir_path file').
Proof.
  intros Hp Hin Hm Hfree Ht. revert cands.
  induction pats as [|q pats IH]; [destruct Hp |]. intros cands. simpl.
  destruct (scan_pattern _ _ _ _ _ q json_files cands) as [r | c] eqn:Hs.
  - apply scan_pattern_return in Hs as (f' & Hhit & -> & _). now exists f'.
  - destruct Hp as [-> | Hp]; [| now apply IH].
    destruct (scan_pattern_hit pattern json_files cands file Hin Hm Hfree Ht)
      as (f' & _ & Hs').
    congruence.
Qed.

Lemma sweep_files_find pattern files :
  sweep_files accept dir_path base_name media_ext json_titles used_jsons
    pattern files
  = option_map (Path.join dir_path)
      (List.find (probe accept dir_path base_name media_ext json_titles
                    used_jsons pattern) files).
Proof.
  induction files as [|file files IH]; simpl; [reflexivity |].
  unfold probe at 1.
  destruct (Fnmatch.fnmatch _ _); simpl; [| exact IH].
  case_bool_decide; simpl; [exact IH |].
  destruct (String.eqb _ _); simpl; [reflexivity |].
  destruct (accept _ _ _); simpl; [reflexivity | exact IH].
Qed.

Lemma sweep_files_complete pattern files file :
  In file files ->
  probe accept dir_path base_name media_ext json_titles used_jsons pattern file = true ->
  exists p, sweep_files accept dir_path base_name media_ext json_titles used_jsons
              pattern files = Some p.
Proof.
  intros Hin Hp. rewrite sweep_files_find.
  destruct (List.find _ files) as [x|] eqn:Hf; [now eexists |].
  apply (List.find_none _ _ Hf) in Hin. congruence.
Qed.

Lemma sweep_complete name lengths l file :
  In l lengths -> In file json_files ->
  probe accept dir_path base_name media_ext json_titles used_jsons
    (Str.take (Z.to_nat l) name ++ "*.json") file = true ->
  exists p, sweep accept dir_path base_name media_ext json_files json_titles
              used_jsons name lengths = Some p.
Proof.
  intros Hl Hin Hp. induction lengths as [|x lengths IH]; [destruct Hl |]. simpl.
  destruct (sweep_files _ _ _ _ _ _ _ json_files) as [q|] eqn:Hs; [now eexists |].
  destruct Hl as [-> | Hl]; [| now apply IH].
  destruct (sweep_files_complete _ _ _ Hin Hp) as (p & Hs'). congruence.
Qed.

End SearchFacts.

Lemma join_entry_inj (a b b' : string) :
  entry_name b -> entry_name b' -> Path.join a b = Path.join a b' -> b = b'.
Proof.
  unfold entry_name, Path.join. intros -> ->.
  destruct (String.eqb a "" || Str.endswith a "/"); intros H.
  - now apply append_cancel_l in H.
  - apply append_cancel_l in H. now injection H.
Qed.

(** Every media file has an extension of the allow-list, hence a
    non-empty one. *)
Lemma media_file_has_ext (filename : string) :
  is_media_file filename = true -> snd (Path.splitext filename) <> "".
Proof.
  unfold is_media_file. intros H. apply bool_decide_eq_true in H.
  intros Hnil. rewrite Hnil in H. simpl in H.
  unfold media_extensions in H.
  repeat (apply elem_of_cons in H as [H | H]; [discriminate |]).
  inversion H.
Qed.

(** C10. With a non-empty media extension, as every media file has, the
    search never returns a sidecar whose cached title is empty: every path
    it returns belongs to a sidecar with a non-empty title, and among
    directory entries a sidecar with an empty title is not the result. *)
Theorem empty_title_never_returned
    (dir_path base_name media_ext num_suffix : string)
    (json_files : list string) (json_titles : gmap string string)
    (used_jsons : gset string) (sv : list string) (al f : spec_float) (d : Z) :
  media_ext <> "" ->
  (forall p,
     find_misnamed_json dir_path base_name media_ext num_suffix json_files
       json_titles used_jsons sv al f d = inr (Some p) ->
     exists file, In file json_files /\ p = Path.join dir_path file /\
       title_of json_titles file <> "")
  /\ (forall file,
        Forall entry_name json_files -> In file json_files ->
        title_of json_titles file = "" ->
        find_misnamed_json dir_path base_name media_ext num_suffix json_files
          json_titles used_jsons sv al f d <> inr (Some (Path.join dir_path file))).
Proof.
  intros Hext.
  assert (Hfirst : forall p,
     find_misnamed_json dir_path base_name media_ext num_suffix json_files
       json_titles used_jsons sv al f d = inr (Some p) ->
     exists file, In file json_files /\ p = Path.join dir_path file /\
       title_of json_titles file <> "").
  { intros p H. apply find_sound in H as (file & Hhit & ->).
    exists file. destruct Hhit as [(Hin & _ & Ht) | (Hin & _ & Ha)];
      (split; [exact Hin |]; split; [reflexivity |]; intros He; rewrite He in *).
    - simpl in Ht. symmetry in Ht. apply lower_nil_inv in Ht.
      apply append_nil_inv in Ht as [_ Ht]. contradiction.
    - now rewrite is_matching_title_empty in Ha. }
  split; [exact Hfirst |].
  intros file Hentries Hin Ht H.
  apply Hfirst in H as (file' & Hin' & Hp & Ht').
  rewrite Forall_forall in Hentries.
  apply join_entry_inj in Hp; [congruence | |];
    apply Hentries; now apply list_elem_of_In.
Qed.

(** The sidecar under the canonical name has no title field: its cached
    title is empty and it is not what the search returns. *)
Lemma empty_title_never_returned_example :
  let json_files := ["IMG_01.jpg.supplemental-metadata.json"; "IMG_01.jpg.suppl.json"] in
  let json_titles := load_json_titles taken_fs "d" json_files in
  title_of json_titles "IMG_01.jpg.supplemental-metadata.json" = "" /\
  find_misnamed_json "d" "IMG_01" ".jpg" "" json_files json_titles ∅
    default_suffix_variants avg_30 factor_07 20
  <> inr (Some (Path.join "d" "IMG_01.jpg.supplemental-metadata.json")).
Proof.
  intros json_files json_titles. split; [reflexivity |].
  apply (proj2 (empty_title_never_returned "d" "IMG_01" ".jpg" "" json_files
                  json_titles ∅ default_suffix_variants avg_30 factor_07 20
                  ltac:(discriminate))).
  - repeat constructor.
  - now left.
  - reflexivity.
Defined.

(** C3 as stated fails in the truncation tiers.  Both sidecars fit the
    same truncated prefix; the second carries the expected title exactly,
    yet the search returns the first, whose title is one letter off, on the
    matcher's decision: with a matcher that rejects everything the result
    is the second. *)
Lemma fuzzy_match_precedes_exact_title :
  In "holiday_in_the_mount-b.json" near_files /\
  title_of near_titles "holiday_in_the_mount-b.json"
    = expected_title "holiday_in_the_mountains" ".jpg" /\
  Str.lower (title_of near_titles "holiday_in_the_mount-a.json")
    <> Str.lower (expected_title "holiday_in_the_mountains" ".jpg") /\
  find_misnamed_json "d" "holiday_in_the_mountains" ".jpg" "" near_files
    near_titles ∅ default_suffix_variants avg_30 factor_07 20
    = inr (Some "d/holiday_in_the_mount-a.json") /\
  find_misnamed_json_with reject_all "d" "holiday_in_the_mountains" ".jpg" ""
    near_files near_titles ∅ default_suffix_variants avg_30 factor_07 20
    = inr (Some "d/holiday_in_the_mount-b.json").
Proof.
  split; [right; now left |].
  split; [reflexivity |].
  split; [discriminate |].
  split; vm_compute; reflexivity.
Qed.

(** C3, amended.  In the pattern pass a free sidecar whose name fits one
    of the patterns and whose cached title is the expected title, case
    aside, makes the search return a sidecar with that title before the
    matcher is asked: the result is the same for every matcher.  In a
    truncation sweep each candidate is tested for the title and then by the
    matcher before the next candidate is looked at: the result is the first
    candidate, in the order of the listing, that passes either test. *)
Theorem exact_title_short_circuit
    (dir_path base_name media_ext num_suffix : string)
    (json_files : list string) (json_titles : gmap string string)
    (used_jsons : gset string) (sv : list string) (al f : spec_float) (d : Z) :
  (forall file pattern,
     In file json_files ->
     In pattern (patterns base_name media_ext num_suffix sv) ->
     Fnmatch.fnmatch (Str.lower file) (Str.lower pattern) = true ->
     Path.join dir_path file ∉ used_jsons ->
     Str.lower (title_of json_titles file) = Str.lower (base_name ++ media_ext) ->
     exists file',
       In file' json_files /\
       (Path.join dir_path file' ∉ used_jsons) /\
       Str.lower (title_of json_titles file') = Str.lower (base_name ++ media_ext) /\
       forall accept,
         find_misnamed_json_with accept dir_path base_name media_ext num_suffix
           json_files json_titles used_jsons sv al f d
         = inr (Some (Path.join dir_path file')))
  /\ (forall accept pattern files,
        sweep_files accept dir_path base_name media_ext json_titles used_jsons
          pattern files
        = option_map (Path.join dir_path)
            (List.find (probe accept dir_path base_name media_ext json_titles
                          used_jsons pattern) files)).
Proof.
  split; [| intros; apply sweep_files_find].
  intros file pattern Hin Hpat Hm Hfree Ht.
  destruct (scan_patterns_hit dir_path base_name media_ext json_files json_titles
              used_jsons _ [] file pattern Hpat Hin Hm Hfree Ht)
    as (file' & (Hin' & Hfree' & Ht') & Hs).
  exists file'. repeat split; auto.
  intros accept. unfold find_misnamed_json_with. now rewrite Hs.
Qed.

(** Of two sidecars with the title, the one under the earlier pattern is
    the result, whatever the matcher is. *)
Lemma exact_title_short_circuit_twins :
  exists file',
    In file' ["IMG_01.jpg.suppl.json"; "IMG_01.jpg.su.json"] /\
    forall accept,
      find_misnamed_json_with accept "d" "IMG_01" ".jpg" ""
        ["IMG_01.jpg.suppl.json"; "IMG_01.jpg.su.json"]
        {[ "IMG_01.jpg.suppl.json" := "IMG_01.jpg";
           "IMG_01.jpg.su.json" := "img_01.JPG" ]} ∅
        default_suffix_variants avg_30 factor_07 20
      = inr (Some (Path.join "d" file')).
Proof.
  destruct (proj1 (exact_title_short_circuit "d" "IMG_01" ".jpg" ""
                     ["IMG_01.jpg.suppl.json"; "IMG_01.jpg.su.json"]
                     {[ "IMG_01.jpg.suppl.json" := "IMG_01.jpg";
                        "IMG_01.jpg.su.json" := "img_01.JPG" ]} ∅
                     default_suffix_variants avg_30 factor_07 20)
              "IMG_01.jpg.su.json" "IMG_01.jpg.su.json")
    as (file' & Hin & _ & _ & Hfind).
  - right. now left.
  - vm_compute. do 65 right. now left.
  - reflexivity.
  - apply not_elem_of_empty.
  - reflexivity.
  - exists file'. split; [exact Hin | exact Hfind].
Defined.

(** C9. For a base name of 60 characters with factor 0.7 and divisor 15 the
    sweep probes the lengths 60, 59, ..., 42: the minimum is
    max(20, int(60 * 0.7)) = 42 and the step max(1, (60 - 42) // 15) = 1.
    The length 44 is among them, so a free sidecar that fits the pattern of
    the 44-character prefix and has the title, or is accepted, is reached:
    the search returns a sidecar. *)
Theorem truncation_sweep_reaches_44
    (dir_path base_name media_ext num_suffix : string)
    (json_files : list string) (json_titles : gmap string string)
    (used_jsons : gset string) (sv : list string) (al : spec_float) (file : string) :
  String.length base_name = 60%nat ->
  Float.int_mul 60 factor_07 = inr 42
  /\ sweep_lengths (Str.len base_name) factor_07 15
     = inr (range_down 60 (Z.max 20 42 - 1) (Z.max 1 ((60 - 42) / 15)))
  /\ range_down 60 (Z.max 20 42 - 1) (Z.max 1 ((60 - 42) / 15))
     = [60; 59; 58; 57; 56; 55; 54; 53; 52; 51; 50; 49; 48; 47; 46; 45; 44; 43; 42]
  /\ (In file json_files ->
      Path.join dir_path file ∉ used_jsons ->
      Fnmatch.fnmatch (Str.lower file)
        (Str.lower (Str.take 44 base_name ++ "*.json")) = true ->
      Str.lower (title_of json_titles file) = Str.lower (base_name ++ media_ext)
      \/ is_matching_title (title_of json_titles file) (base_name ++ media_ext)
           media_ext = true ->
      exists p,
        find_misnamed_json dir_path base_name media_ext num_suffix json_files
          json_titles used_jsons sv al factor_07 15 = inr (Some p)).
Proof.
  intros Hlen.
  assert (Hsweep : sweep_lengths (Str.len base_name) factor_07 15
     = inr [60; 59; 58; 57; 56; 55; 54; 53; 52; 51; 50; 49; 48; 47; 46; 45; 44; 43; 42]).
  { unfold Str.len. rewrite Hlen. vm_compute. reflexivity. }
  split; [vm_compute; reflexivity |].
  split; [rewrite Hsweep; vm_compute; reflexivity |].
  split; [vm_compute; reflexivity |].
  intros Hin Hfree Hm Hok.
  unfold find_misnamed_json, find_misnamed_json_with.
  destruct (scan_patterns _ _ _ _ _ _ _ _) as [q | cands]; [now eexists |].
  destruct (first_accepted _ _ _ cands) as [q|]; [now eexists |].
  rewrite Hsweep. cbv beta iota delta [bind].
  destruct (sweep_complete is_matching_title dir_path base_name media_ext json_files
              json_titles used_jsons base_name
              [60; 59; 58; 57; 56; 55; 54; 53; 52; 51; 50; 49; 48; 47; 46; 45; 44; 43; 42]
              44 file) as (p & Hp).
  - do 16 right. now left.
  - exact Hin.
  - unfold probe. change (Z.to_nat 44) with 44%nat. rewrite Hm.
    rewrite bool_decide_eq_false_2 by assumption. simpl.
    unfold expected_title.
    destruct Hok as [Ht | Ha]; [rewrite Ht, String.eqb_refl | rewrite Ha];
      auto using orb_true_r.
  - rewrite Hp. now eexists.
Qed.

(** A sidecar named after the first 44 characters of the base name: it
    fits no longer prefix, and it is found. *)
Lemma truncation_sweep_reaches_44_example :
  Fnmatch.fnmatch (Str.lower long_sidecar)
    (Str.lower (Str.take 45 long_base ++ "*.json")) = false /\
  exists p,
    find_misnamed_json "d" long_base ".jpg" "" [long_sidecar] long_titles ∅
      default_suffix_variants avg_30 factor_07 15 = inr (Some p).
Proof.
  split; [reflexivity |].
  apply (proj2 (proj2 (proj2 (truncation_sweep_reaches_44 "d" long_base ".jpg" ""
           [long_sidecar] long_titles ∅ default_suffix_variants avg_30
           long_sidecar eq_refl)))).
  - now left.
  - apply not_elem_of_empty.
  - reflexivity.
  - left. reflexivity.
Defined.

(** ** NameParser *)

Lemma append_assoc (a b c : string) : (a ++ b) ++ c = a ++ b ++ c.
Proof. induction a as [|x a IH]; simpl; [reflexivity | now rewrite IH]. Qed.

Lemma append_inj_tail (x y : string) (c : ascii) :
  x ++ String c "" = y ++ String c "" -> x = y.
Proof.
  revert y. induction x as [|a x IH]; intros [|b y]; simpl; intros H.
  - reflexivity.
  - injection H as _ H. destruct y; discriminate.
  - injection H as _ H. destruct x; discriminate.
  - injection H as -> H. f_equal. now apply IH.
Qed.

Lemma has_newline_app (a b : string) :
  has_newline (a ++ b) = has_newline a || has_newline b.
Proof.
  induction a as [|x a IH]; simpl; [reflexivity |].
  now rewrite IH, orb_assoc.
Qed.

Lemma all_digits_app (a b : string) :
  all_digits (a ++ b) = all_digits a && all_digits b.
Proof.
  induction a as [|x a IH]; simpl; [reflexivity |].
  now rewrite IH, andb_assoc.
Qed.

Lemma all_digits_no_newline (ds : string) :
  all_digits ds = true -> has_newline ds = false.
Proof.
  induction ds as [|c ds IH]; simpl; [reflexivity |].
  intros [Hc Hds]%andb_true_iff. rewrite (IH Hds), orb_false_r.
  destruct (Ascii.eqb_spec c newline) as [-> |]; [discriminate | reflexivity].
Qed.

Lemma span_digits_spec (s : string) :
  s = fst (span_digits s) ++ snd (span_digits s) /\
  all_digits (fst (span_digits s)) = true /\
  match snd (span_digits s) with
  | String c _ => Str.is_digit c = false
  | EmptyString => True
  end.
Proof.
  induction s as [|c s (IH1 & IH2 & IH3)]; simpl; [auto |].
  destruct (Str.is_digit c) eqn:Hc; [| simpl; auto].
  destruct (span_digits s) as [ds r]. simpl in *.
  rewrite Hc, IH2. repeat split; auto. now rewrite <- IH1.
Qed.

Lemma span_digits_app (ds r : string) :
  all_digits ds = true ->
  match r with String c _ => Str.is_digit c = false | EmptyString => True end ->
  span_digits (ds ++ r) = (ds, r).
Proof.
  intros Hds Hr. induction ds as [|c ds IH]; simpl.
  - destruct r as [|c r]; simpl; [reflexivity | now rewrite Hr].
  - simpl in Hds. apply andb_true_iff in Hds as [Hc Hds].
    now rewrite Hc, (IH Hds).
Qed.

Lemma at_dollar_no_newline (r : string) :
  has_newline r = false -> at_dollar r = true -> r = "".
Proof.
  destruct r as [|c [|c' r]]; simpl; try congruence.
  rewrite orb_false_r. congruence.
Qed.

Lemma at_dollar_cases (r : string) :
  at_dollar r = true -> r = "" \/ r = String newline "".
Proof.
  destruct r as [|c [|c' r]]; simpl; auto; [| discriminate].
  intros ->%Ascii.eqb_eq. auto.
Qed.

Lemma match_group_dup (ds : string) :
  ds <> "" -> all_digits ds = true ->
  match_group ("(" ++ ds ++ ")") = Some ("(" ++ ds ++ ")").
Proof.
  intros Hne Hds. change ("(" ++ ds ++ ")") with (String "(" (ds ++ ")")).
  unfold match_group. rewrite Ascii.eqb_refl.
  rewrite (span_digits_app ds ")" Hds) by reflexivity.
  destruct ds; [congruence | reflexivity].
Qed.

Lemma match_group_inv (s g : string) :
  match_group s = Some g ->
  exists ds r, ds <> "" /\ all_digits ds = true /\ at_dollar r = true /\
    s = "(" ++ ds ++ ")" ++ r /\ g = "(" ++ ds ++ ")".
Proof.
  destruct s as [|c s1]; simpl; [discriminate |].
  destruct (Ascii.eqb_spec c "(") as [-> |]; [| discriminate].
  destruct (span_digits_spec s1) as (Hs1 & Hds & _).
  destruct (span_digits s1) as [[|d ds] [|c' r]]; try discriminate.
  simpl in Hs1, Hds.
  destruct (Ascii.eqb_spec c' ")") as [-> |]; [| discriminate]. simpl.
  destruct (at_dollar r) eqn:Hr; [| discriminate].
  intros [= <-]. exists (String d ds), r.
  split; [discriminate |]. split; [exact Hds |]. split; [exact Hr |].
  split; [now rewrite Hs1 | reflexivity].
Qed.

(** On a name without line breaks the tail matches at the end of the name
    or where a trailing parenthesized integer starts. *)
Lemma match_tail_inv (s : string) (g : option string) :
  has_newline s = false -> match_tail s = Some g ->
  (s = "" /\ g = None) \/
  (exists ds, ds <> "" /\ all_digits ds = true /\ s = "(" ++ ds ++ ")" /\ g = Some s).
Proof.
  intros Hnl. unfold match_tail.
  destruct (match_group s) as [g'|] eqn:Hg.
  - intros [= <-]. right.
    apply match_group_inv in Hg as (ds & r & Hne & Hds & Hr & -> & ->).
    assert (r = "") as ->.
    { apply at_dollar_no_newline; [| exact Hr].
      change ("(" ++ ds ++ ")" ++ r) with (String "(" (ds ++ String ")" r)) in Hnl.
      simpl in Hnl. rewrite has_newline_app in Hnl. simpl in Hnl.
      apply orb_false_iff in Hnl as [_ Hnl]. exact Hnl. }
    exists ds. now rewrite !append_nil_r.
  - destruct (at_dollar s) eqn:Hd; [| discriminate].
    intros [= <-]. left. split; [| reflexivity]. now apply at_dollar_no_newline.
Qed.

Lemma re_match_dup_eq (s : string) :
  re_match_dup s =
  match match_tail s with
  | Some g2 => Some (EmptyString, g2)
  | None =>
      match s with
      | String c s' =>
          if Ascii.eqb c newline then None
          else match re_match_dup s' with
               | Some (g1, g2) => Some (String c g1, g2)
               | None => None
               end
      | EmptyString => None
      end
  end.
Proof. destruct s; reflexivity. Qed.

Lemma re_match_dup_suffix (r ds : string) :
  has_newline r = false -> ds <> "" -> all_digits ds = true ->
  re_match_dup (r ++ "(" ++ ds ++ ")") = Some (r, Some ("(" ++ ds ++ ")")).
Proof.
  intros Hnl Hne Hds. induction r as [|c r IH].
  - change ("" ++ "(" ++ ds ++ ")") with ("(" ++ ds ++ ")").
    rewrite re_match_dup_eq. unfold match_tail. now rewrite (match_group_dup ds).
  - simpl in Hnl. apply orb_false_iff in Hnl as [Hc Hnl].
    change (String c r ++ "(" ++ ds ++ ")") with (String c (r ++ "(" ++ ds ++ ")")).
    rewrite re_match_dup_eq. cbv beta iota. rewrite Hc, (IH Hnl).
    destruct (match_tail (String c (r ++ "(" ++ ds ++ ")"))) as [g|] eqn:Hg;
      [| reflexivity].
    exfalso. apply match_tail_inv in Hg as [[? _] | (ds' & _ & Hds' & Heq & _)];
      [discriminate | |].
    + change ("(" ++ ds' ++ ")") with (String "(" (ds' ++ ")")) in Heq.
      injection Heq as -> Heq.
      change ("(" ++ ds ++ ")") with (String "(" (ds ++ ")")) in Heq.
      assert (Heq' : (r ++ String "(" ds) ++ ")" = ds' ++ ")").
      { now rewrite append_assoc. }
      apply append_inj_tail in Heq'. subst ds'.
      rewrite all_digits_app in Hds'. simpl in Hds'.
      now rewrite andb_false_r in Hds'.
    + simpl. rewrite Hc, has_newline_app, Hnl. simpl.
      now rewrite has_newline_app, (all_digits_no_newline ds Hds).
Qed.

Lemma ends_with_dup_cons (c : ascii) (s r ds : string) :
  ends_with_dup s r ds -> ends_with_dup (String c s) (String c r) ds.
Proof. intros (? & ? & ->). now repeat split. Qed.

Lemma re_match_dup_plain (name : string) :
  has_newline name = false ->
  (forall r ds, ~ ends_with_dup name r ds) ->
  re_match_dup name = Some (name, None).
Proof.
  induction name as [|c s IH]; intros Hnl Hno; [reflexivity |].
  rewrite re_match_dup_eq.
  destruct (match_tail (String c s)) as [g|] eqn:Hg.
  - exfalso. apply match_tail_inv in Hg as [[? _] | (ds & Hne & Hds & Heq & _)];
      [discriminate | | exact Hnl].
    apply (Hno "" ds). now repeat split.
  - simpl in Hnl. apply orb_false_iff in Hnl as [Hc Hnl]. cbv beta iota.
    rewrite Hc. rewrite IH; [reflexivity | exact Hnl |].
    intros r ds H. apply (Hno (String c r) ds). now apply ends_with_dup_cons.
Qed.

(** A name with a line break before its last character is not matched by
    the pattern. *)
Lemma chomp_cons (c c' : ascii) (s : string) :
  chomp (String c (String c' s)) = String c (chomp (String c' s)).
Proof. reflexivity. Qed.

Lemma chomp_snoc_newline (x : string) : chomp (x ++ String newline "") = x.
Proof.
  induction x as [|c x IH]; [reflexivity |].
  change (String c x ++ String newline "") with (String c (x ++ String newline "")).
  destruct x as [|c' x]; [reflexivity |].
  change (String c' x ++ String newline "") with (String c' (x ++ String newline "")) in *.
  now rewrite chomp_cons, IH.
Qed.

Lemma chomp_no_newline (x : string) : has_newline x = false -> chomp x = x.
Proof.
  induction x as [|c x IH]; [reflexivity |].
  intros Hnl. simpl in Hnl. apply orb_false_iff in Hnl as [Hc Hx].
  destruct x as [|c' x]; [simpl; now rewrite Hc |].
  now rewrite chomp_cons, (IH Hx).
Qed.

Lemma chomp_cases (s : string) : s = chomp s \/ s = chomp s ++ String newline "".
Proof.
  induction s as [|c s IH]; [now left |].
  destruct s as [|c' s].
  - simpl. destruct (Ascii.eqb_spec c newline) as [-> |]; [now right | now left].
  - rewrite chomp_cons. destruct IH as [IH | IH]; [left | right].
    + now f_equal.
    + change (String c (chomp (String c' s)) ++ String newline "")
        with (String c (chomp (String c' s) ++ String newline "")).
      now f_equal.
Qed.

Lemma match_tail_chomp (s : string) (g : option string) :
  match_tail s = Some g -> has_newline (chomp s) = false.
Proof.
  unfold match_tail. destruct (match_group s) as [g'|] eqn:Hg.
  - intros _. apply match_group_inv in Hg as (ds & r & _ & Hds & Hr & -> & _).
    assert (Hbody : has_newline ("(" ++ ds ++ ")") = false).
    { change ("(" ++ ds ++ ")") with (String "(" (ds ++ ")")). simpl.
      now rewrite has_newline_app, (all_digits_no_newline ds Hds). }
    apply at_dollar_cases in Hr as [-> | ->].
    + rewrite append_nil_r. now rewrite chomp_no_newline.
    + replace ("(" ++ ds ++ ")" ++ String newline "")
        with (("(" ++ ds ++ ")") ++ String newline "").
      * now rewrite chomp_snoc_newline.
      * change ("(" ++ ds ++ ")") with (String "(" (ds ++ ")")). simpl.
        now rewrite append_assoc.
  - destruct (at_dollar s) eqn:Hd; [| discriminate].
    intros _. now apply at_dollar_cases in Hd as [-> | ->].
Qed.

Lemma re_match_dup_inner_newline (s : string) :
  has_newline (chomp s) = true -> re_match_dup s = None.
Proof.
  induction s as [|c s IH]; intros Hnl; [discriminate |].
  rewrite re_match_dup_eq.
  destruct (match_tail (String c s)) as [g|] eqn:Hg.
  - apply match_tail_chomp in Hg. congruence.
  - cbv beta iota. destruct (Ascii.eqb c newline) eqn:Hc; [reflexivity |].
    rewrite IH; [reflexivity |].
    destruct s as [|c' s].
    + simpl in Hnl. rewrite Hc in Hnl. simpl in Hnl. now rewrite Hc in Hnl.
    + rewrite chomp_cons in Hnl. simpl in Hnl. now rewrite Hc in Hnl.
Qed.

(** A line break that ends the name is passed over by [$]. *)
Lemma at_dollar_snoc_newline (b : string) :
  has_newline b = false -> at_dollar (b ++ String newline "") = at_dollar b.
Proof.
  destruct b as [|c b]; [reflexivity |]. simpl.
  intros [Hc _]%orb_false_iff. rewrite Hc. now destruct b.
Qed.

Lemma span_digits_snoc_newline (s : string) :
  span_digits (s ++ String newline "")
  = (fst (span_digits s), snd (span_digits s) ++ String newline "").
Proof.
  induction s as [|c s IH]; [reflexivity |]. simpl.
  destruct (Str.is_digit c); [| reflexivity].
  rewrite IH. now destruct (span_digits s).
Qed.

Lemma match_group_snoc_newline (b : string) :
  has_newline b = false -> match_group (b ++ String newline "") = match_group b.
Proof.
  destruct b as [|c s1]; [reflexivity |]. simpl.
  intros [_ Hnl]%orb_false_iff.
  destruct (Ascii.eqb c "("); [| reflexivity].
  rewrite span_digits_snoc_newline.
  destruct (span_digits_spec s1) as (Hs1 & _ & _).
  destruct (span_digits s1) as [[|d ds] [|c' r]]; simpl in *; try reflexivity.
  rewrite at_dollar_snoc_newline; [reflexivity |].
  rewrite Hs1 in Hnl. simpl in Hnl. apply orb_false_iff in Hnl as [_ Hnl].
  rewrite has_newline_app in Hnl. simpl in Hnl.
  apply orb_false_iff in Hnl as [_ Hnl]. now apply orb_false_iff in Hnl as [_ Hnl].
Qed.

Lemma re_match_dup_snoc_newline (b : string) :
  has_newline b = false -> re_match_dup (b ++ String newline "") = re_match_dup b.
Proof.
  induction b as [|c b IH]; intros Hnl; [reflexivity |].
  rewrite (re_match_dup_eq (String c b)), re_match_dup_eq.
  unfold match_tail.
  rewrite (match_group_snoc_newline _ Hnl), (at_dollar_snoc_newline _ Hnl).
  simpl in Hnl. apply orb_false_iff in Hnl as [Hc Hnl].
  change (String c b ++ String newline "") with (String c (b ++ String newline "")).
  cbv beta iota. now rewrite Hc, (IH Hnl).
Qed.

Lemma re_match_dup_chomp (s : string) :
  has_newline (chomp s) = false -> re_match_dup s = re_match_dup (chomp s).
Proof.
  intros Hnl. destruct (chomp_cases s) as [H | H]; rewrite H at 1; [reflexivity |].
  now apply re_match_dup_snoc_newline.
Qed.

(** C7 as stated fails: a name without a trailing [(N)] is not returned
    whole, it loses the whitespace at both ends. *)
Lemma split_strips_plain_name :
  documented_split "photo " = ("photo ", "") /\
  parse_duplicate_number "photo " = ("photo", "") /\
  parse_duplicate_number "photo " <> documented_split "photo ".
Proof. repeat split; try reflexivity. discriminate. Qed.

(** C7, amended.  The split is total.  Let [body] be the name without the
    line break that may end it.  If [body] ends with a parenthesized
    integer [(N)], the suffix is [(N)] and the base name is the remainder
    with the whitespace at both ends removed; otherwise the suffix is empty
    and the base name is [body] with the whitespace at both ends removed.
    Only a name with a line break inside is returned whole, with an empty
    suffix. *)
Theorem parse_duplicate_number_split (name : string) :
  (has_newline (chomp name) = true -> parse_duplicate_number name = (name, ""))
  /\ (has_newline (chomp name) = false ->
      (forall r ds, ends_with_dup (chomp name) r ds ->
         parse_duplicate_number name = (Str.strip r, "(" ++ ds ++ ")"))
      /\ ((forall r ds, ~ ends_with_dup (chomp name) r ds) ->
          parse_duplicate_number name = (Str.strip (chomp name), ""))).
Proof.
  unfold parse_duplicate_number. split; [| split].
  - intros H. now rewrite re_match_dup_inner_newline.
  - intros r ds (Hne & Hds & Heq). rewrite re_match_dup_chomp by assumption.
    rewrite Heq in *. rewrite has_newline_app in H.
    apply orb_false_iff in H as [Hr _].
    now rewrite re_match_dup_suffix.
  - intros Hno. rewrite re_match_dup_chomp by assumption.
    now rewrite re_match_dup_plain.
Qed.

(** The split of [a b (12)], with and without blanks around the base. *)
Lemma parse_duplicate_number_split_example :
  parse_duplicate_number " a b (12)" = ("a b", "(12)").
Proof.
  apply (proj1 (proj2 (parse_duplicate_number_split " a b (12)") eq_refl) " a b " "12").
  repeat split; discriminate.
Defined.

(** ** ReconciliationSession *)

Lemma truthy_Some (r : option string) (p : string) :
  truthy r = Some p -> r = Some p /\ p <> "".
Proof.
  destruct r as [[|c s]|]; simpl; try discriminate.
  intros [= <-]. split; [reflexivity | discriminate].
Qed.

Lemma assigned_paths_app (os os' : list outcome) :
  assigned_paths (os ++ os') = (assigned_paths os ++ assigned_paths os')%list.
Proof. apply flat_map_app. Qed.

Section DryRun.

Variables (subdir : string) (json_files : list string).
Variable json_titles : gmap string string.
Variables (do_embed create_backup : bool).
Variable t : tuning.

(** In simulation the body of the loop leaves the file system alone and
    binds at most one sidecar, a free one of the directory. *)
Lemma process_media_dry (st st' : session) (file : string) :
  process_media subdir json_files json_titles true do_embed create_backup t st file
    = inr st' ->
  fs st' = fs st /\
  ((used_jsons st' = used_jsons st /\
    assigned_paths (outcomes st') = assigned_paths (outcomes st))
   \/ exists f,
        In f json_files /\ (Path.join subdir f ∉ used_jsons st) /\
        used_jsons st' = {[Path.join subdir f]} ∪ used_jsons st /\
        assigned_paths (outcomes st')
        = (assigned_paths (outcomes st) ++ [Path.join subdir f])%list).
Proof.
  unfold process_media.
  destruct (Path.splitext file) as [media_name media_ext].
  destruct (parse_duplicate_number media_name) as [base_name num_suffix].
  destruct (find_misnamed_json _ _ _ _ _ _ _ _ _ _ _) as [e | r] eqn:Hfind;
    cbv beta iota delta [bind]; [discriminate |].
  intros [= <-].
  destruct (truthy r) as [json_path|] eqn:Hr.
  - apply truthy_Some in Hr as [-> _].
    apply find_sound in Hfind as (f & Hhit & ->).
    assert (Hf : In f json_files /\ (Path.join subdir f ∉ used_jsons st)).
    { destruct Hhit as [(? & ? & _) | (? & ? & _)]; auto. }
    destruct Hf as [Hin Hfree].
    destruct (negb (String.eqb _ _)); simpl.
    + case_bool_decide; simpl.
      * split; [reflexivity |]. left. split; [reflexivity |].
        rewrite assigned_paths_app. simpl. now rewrite app_nil_r.
      * split; [reflexivity |]. right. exists f. repeat split; auto.
        now rewrite assigned_paths_app.
    + split; [reflexivity |]. right. exists f. repeat split; auto.
      now rewrite assigned_paths_app.
  - simpl. split; [reflexivity |]. left. split; [reflexivity |].
    rewrite assigned_paths_app. simpl. now rewrite app_nil_r.
Qed.

Local Abbreviation session_inv := (bound_once subdir json_files).

Lemma process_media_dry_inv (st st' : session) (file : string) :
  session_inv st ->
  process_media subdir json_files json_titles true do_embed create_backup t st file
    = inr st' ->
  session_inv st'.
Proof.
  intros (Hnd & Hused & Hsub) H.
  apply process_media_dry in H as (_ & [[Hu Ha] | (f & Hin & Hfree & Hu & Ha)]).
  - unfold bound_once. now rewrite Hu, Ha.
  - unfold bound_once. rewrite Hu, Ha. split; [| split].
    + apply NoDup_app. split; [exact Hnd |]. split; [| apply NoDup_singleton].
      intros p Hp ->%list_elem_of_singleton. now apply Hused in Hp.
    + intros p. rewrite elem_of_union, elem_of_singleton, elem_of_app,
        list_elem_of_singleton, Hused. tauto.
    + intros p [Hp | ->%list_elem_of_singleton]%elem_of_app; [now apply Hsub |].
      apply list_elem_of_fmap_2. now apply list_elem_of_In.
Qed.

Lemma process_files_dry_inv (media_files : list string) (st : session) :
  session_inv st ->
  session_inv
    (process_files subdir json_files json_titles true do_embed create_backup t
       media_files st).1.
Proof.
  revert st. induction media_files as [|file rest IH]; intros st Hinv; [exact Hinv |].
  simpl. destruct (process_media _ _ _ _ _ _ _ st file) as [e | st'] eqn:Hstep;
    [exact Hinv |].
  apply IH. eapply process_media_dry_inv; eauto.
Qed.

Lemma session_inv_size (st : session) :
  session_inv st -> (size (used_jsons st) <= length json_files)%nat.
Proof.
  intros (Hnd & Hused & Hsub).
  assert (Heq : used_jsons st = list_to_set (assigned_paths (outcomes st))).
  { apply set_eq. intros p. now rewrite elem_of_list_to_set, Hused. }
  rewrite Heq, size_list_to_set by exact Hnd.
  rewrite <- (length_fmap (Path.join subdir) json_files).
  apply submseteq_length, NoDup_submseteq; assumption.
Qed.

End DryRun.

(** C1 as stated fails, also in simulation: the canonical name of
    [IMG_01.jpg] is taken, so its match is given up and the sidecar stays
    free; the search returns the same sidecar for [IMG_01(1).jpg]. *)
Lemma dry_run_returns_sidecar_twice :
  returned_paths
    (outcomes (process_directory "d" taken_files taken_fs true default_tuning
                 false false).1)
  = ["d/IMG_01.jpg.suppl.json"; "d/IMG_01.jpg.suppl.json"] /\
  ~ NoDup (returned_paths
             (outcomes (process_directory "d" taken_files taken_fs true
                          default_tuning false false).1)).
Proof.
  assert (H : returned_paths
    (outcomes (process_directory "d" taken_files taken_fs true default_tuning
                 false false).1)
    = ["d/IMG_01.jpg.suppl.json"; "d/IMG_01.jpg.suppl.json"])
    by (vm_compute; reflexivity).
  split; [exact H |]. rewrite H. intros Hnd.
  apply NoDup_cons in Hnd as [Hnotin _]. apply Hnotin. now left.
Qed.

(** C1, amended.  In simulation the sidecars bound to media files, that
    is, the matches not given up because the canonical path is taken, are
    pairwise distinct; the final assignment set is the set of these
    sidecars and has at most as many elements as the directory has
    sidecar files. *)
Theorem dry_run_assignment_injective
    (subdir : string) (files : list string) (fs0 : gmap string content)
    (t : tuning) (do_embed create_backup : bool) :
  let st := (process_directory subdir files fs0 true t do_embed create_backup).1 in
  NoDup (assigned_paths (outcomes st))
  /\ (forall p, p ∈ used_jsons st <-> p ∈ assigned_paths (outcomes st))
  /\ (size (used_jsons st)
      <= length (filter (fun f => Is_true (is_json_file f)) files))%nat.
Proof.
  intros st.
  assert (Hinv : bound_once subdir
            (filter (fun f => Is_true (is_json_file f)) files) st).
  { apply process_files_dry_inv. split; [constructor |]. simpl.
    split; [| intros p Hp; inversion Hp].
    intros p. split; [intros Hp; now apply not_elem_of_empty in Hp
                     | intros Hp; inversion Hp]. }
  split; [apply Hinv |]. split; [apply Hinv |].
  eapply session_inv_size; eauto.
Qed.

(** C2.  The directory holds [IMG_01.jpg], [IMG_01(1).jpg] and two sidecars
    that carry the title [IMG_01.jpg].  In simulation the second media
    file gets the second sidecar.  In a real run the first sidecar is renamed,
    the canonical path is put in the assignment set in place of the matched
    one, and the search, over the listing taken before the rename, returns
    the first sidecar again: the rename fails and the second media file is
    left without a sidecar. *)
Theorem real_run_decides_differently :
  let dry := (process_directory "d" twin_files twin_fs true default_tuning true false).1 in
  let real := (process_directory "d" twin_files twin_fs false default_tuning true false).1 in
  resolutions (outcomes dry)
  = [ ("d/IMG_01.jpg", "d/IMG_01.jpg.suppl.json", true);
      ("d/IMG_01(1).jpg", "d/IMG_01.jpg.su.json", true) ]
  /\ resolutions (outcomes real)
     = [ ("d/IMG_01.jpg", "d/IMG_01.jpg.suppl.json", true);
         ("d/IMG_01(1).jpg", "d/IMG_01.jpg.suppl.json", true) ]
  /\ log real
     = [ Renamed "d/IMG_01.jpg.suppl.json" "d/IMG_01.jpg.supplemental-metadata.json";
         EmbedMetadata "d/IMG_01.jpg" "d/IMG_01.jpg.supplemental-metadata.json"
           false false;
         RenameError "d/IMG_01.jpg.suppl.json" ]
  /\ elements (used_jsons real) = ["d/IMG_01.jpg.supplemental-metadata.json"]
  /\ resolutions (outcomes dry) <> resolutions (outcomes real).
Proof.
  vm_compute. repeat split; try reflexivity. discriminate.
Qed.

(** C8.  When the search has matched a sidecar for a media file, the
    canonical path differs from the matched path and is taken, the body of
    the loop renames nothing and embeds nothing, in either mode: the file
    system and the assignment set stay as they are, the only thing logged
    is the warning about the conflict, and the loop goes on with the next
    media file. *)
Theorem canonical_conflict_is_skipped
    (subdir : string) (json_files : list string) (json_titles : gmap string string)
    (dry_run do_embed create_backup : bool) (t : tuning) (st : session)
    (file : string) (rest : list string) (json_path : string) :
  let media_name := (Path.splitext file).1 in
  let media_ext := (Path.splitext file).2 in
  let base_name := (parse_duplicate_number media_name).1 in
  let num_suffix := (parse_duplicate_number media_name).2 in
  let preferred_json_path := preferred_path subdir base_name num_suffix media_ext in
  let st' :=
    {| fs := fs st; used_jsons := used_jsons st;
       log := log st ++ [WarnPreferredExists json_path];
       outcomes := outcomes st
                   ++ [Matched (Path.join subdir file) json_path preferred_json_path
                         true false] |} in
  find_misnamed_json subdir base_name media_ext num_suffix json_files json_titles
    (used_jsons st) (suffix_variants t) (avg_len t) (min_prefix_factor t)
    (step_divisor t) = inr (Some json_path) ->
  json_path <> "" ->
  json_path <> preferred_json_path ->
  is_Some (fs st !! preferred_json_path) ->
  process_media subdir json_files json_titles dry_run do_embed create_backup t st file
    = inr st'
  /\ process_files subdir json_files json_titles dry_run do_embed create_backup t
       (file :: rest) st
     = process_files subdir json_files json_titles dry_run do_embed create_backup t
         rest st'.
Proof.
  intros media_name media_ext base_name num_suffix preferred_json_path st'
    Hfind Hne Hdiff Htaken.
  assert (Hstep : process_media subdir json_files json_titles dry_run do_embed
                    create_backup t st file = inr st').
  { unfold process_media.
    subst st' preferred_json_path num_suffix base_name media_ext media_name.
    destruct (Path.splitext file) as [mn me]. simpl in *.
    destruct (parse_duplicate_number mn) as [bn ns]. simpl in *.
    rewrite Hfind. cbv beta iota delta [bind].
    assert (Htruthy : truthy (Some json_path) = Some json_path)
      by (destruct json_path; [congruence | reflexivity]).
    rewrite Htruthy.
    apply String.eqb_neq in Hdiff. rewrite Hdiff. simpl.
    now rewrite bool_decide_eq_true_2 by exact Htaken. }
  split; [exact Hstep |]. simpl. now rewrite Hstep.
Qed.

(** The first media file of the directory whose canonical sidecar name is
    taken: a warning, and nothing else. *)
Lemma canonical_conflict_is_skipped_example :
  let json_files := ["IMG_01.jpg.supplemental-metadata.json"; "IMG_01.jpg.suppl.json"] in
  let st := {| fs := taken_fs; used_jsons := ∅; log := []; outcomes := [] |} in
  process_media "d" json_files (load_json_titles taken_fs "d" json_files)
    false true false default_tuning st "IMG_01.jpg"
  = inr {| fs := taken_fs; used_jsons := ∅;
           log := [WarnPreferredExists "d/IMG_01.jpg.suppl.json"];
           outcomes := [Matched "d/IMG_01.jpg" "d/IMG_01.jpg.suppl.json"
                          "d/IMG_01.jpg.supplemental-metadata.json" true false] |}.
Proof.
  intros json_files st.
  apply (proj1 (canonical_conflict_is_skipped "d" json_files
                  (load_json_titles taken_fs "d" json_files) false true false
                  default_tuning st "IMG_01.jpg" [] "d/IMG_01.jpg.suppl.json"
                  ltac:(vm_compute; reflexivity) ltac:(discriminate)
                  ltac:(discriminate) ltac:(eexists; reflexivity))).
Defined.

(** In a real run the assignment set can outgrow the sidecars: the one
    sidecar of the directory is renamed for the first file and, still in
    the listing, matched again for the second under its old name, which is
    the canonical one there. *)
Lemma real_run_set_exceeds_sidecars :
  let real := (process_directory "d" stale_files stale_fs false default_tuning true false).1 in
  length (filter (fun f => Is_true (is_json_file f)) stale_files) = 1%nat /\
  size (used_jsons real) = 2%nat /\
  returned_paths (outcomes real)
  = [ "d/VID_20190814_173205_001(1).mp4.supplemental-metadata.json";
      "d/VID_20190814_173205_001(1).mp4.supplemental-metadata.json" ].
Proof. vm_compute. repeat split; reflexivity. Qed.

(** * Further properties *)

(** ** levenshtein_distance *)

Lemma lev_row_length (c1 : ascii) (s2 : string) (prev : list nat) (last : nat) :
  length prev = S (String.length s2) ->
  length (lev_row c1 s2 prev last) = String.length s2.
Proof.
  revert prev last. induction s2 as [|c2 s2 IH]; intros prev last Hlen.
  - now destruct prev.
  - destruct prev as [|pj [|pj1 prev]]; simpl in Hlen; try lia.
    simpl. rewrite IH; [reflexivity | simpl; lia].
Qed.

Lemma row_rel_last (R : nat -> nat -> Prop) (j : nat) (row : list nat) (d : nat) :
  row <> [] -> row_rel R j row -> R (j + length row - 1)%nat (List.last row d).
Proof.
  revert j. induction row as [|v row IH]; intros j Hne Hrow; [congruence |].
  destruct Hrow as [Hv Hrow]. destruct row as [|w row].
  - simpl. now replace (j + 1 - 1)%nat with j by lia.
  - change (List.last (v :: w :: row) d) with (List.last (w :: row) d).
    replace (j + length (v :: w :: row) - 1)%nat
      with (S j + length (w :: row) - 1)%nat by (simpl; lia).
    apply IH; [discriminate | exact Hrow].
Qed.

Lemma lev_row_within (c1 : ascii) (i : nat) (s2 : string) (prev : list nat)
    (last j : nat) :
  row_rel (within i) j prev -> within (S i) j last ->
  row_rel (within (S i)) (S j) (lev_row c1 s2 prev last).
Proof.
  revert prev last j. induction s2 as [|c2 s2 IH]; intros prev last j Hprev Hlast;
    [now destruct prev |].
  destruct prev as [|pj [|pj1 prev]]; simpl; auto.
  destruct Hprev as (Hpj & Hpj1 & Hprev).
  assert (Hv : within (S i) (S j)
            (Nat.min (Nat.min (S pj1) (S last))
               (pj + (if Ascii.eqb c1 c2 then 0 else 1)))).
  { unfold within, gap in *. destruct (Ascii.eqb c1 c2); lia. }
  split; [exact Hv |]. apply IH; [| exact Hv]. now split.
Qed.

Lemma lev_rows_within (s1 s2 : string) (i : nat) (prev : list nat) :
  length prev = S (String.length s2) ->
  row_rel (within i) 0 prev ->
  length (lev_rows s1 s2 i prev) = S (String.length s2) /\
  row_rel (within (i + String.length s1)) 0 (lev_rows s1 s2 i prev).
Proof.
  revert i prev. induction s1 as [|c1 s1 IH]; intros i prev Hlen Hrow; simpl.
  - now rewrite Nat.add_0_r.
  - replace (i + S (String.length s1))%nat with (S i + String.length s1)%nat by lia.
    apply IH.
    + simpl. now rewrite lev_row_length.
    + split; [unfold within, gap; lia |].
      apply lev_row_within; [exact Hrow | unfold within, gap; lia].
Qed.

Lemma seq_within (j n : nat) : row_rel (within 0) j (seq j n).
Proof.
  revert j. induction n as [|n IH]; intros j; simpl; [exact I |].
  split; [unfold within, gap; lia | apply IH].
Qed.

Lemma lev_rows_last_within (s1 s2 : string) :
  within (String.length s1) (String.length s2)
    (List.last (lev_rows s1 s2 0 (seq 0 (S (String.length s2)))) 0%nat).
Proof.
  destruct (lev_rows_within s1 s2 0 (seq 0 (S (String.length s2))))
    as [Hlen Hrow]; [apply length_seq | apply seq_within |].
  apply (row_rel_last _ 0 _ 0%nat) in Hrow.
  - rewrite Hlen in Hrow. simpl in Hrow.
    now rewrite Nat.sub_0_r in Hrow.
  - intros Hnil. now rewrite Hnil in Hlen.
Qed.

(** X1. The distance of two strings is at least the difference of their
    lengths and at most the larger length, in whichever order they are
    given. *)
Theorem levenshtein_distance_bounds (s1 s2 : string) :
  (String.length s1 - String.length s2 <= levenshtein_distance s1 s2)%nat /\
  (String.length s2 - String.length s1 <= levenshtein_distance s1 s2)%nat /\
  (levenshtein_distance s1 s2
   <= Nat.max (String.length s1) (String.length s2))%nat.
Proof.
  unfold levenshtein_distance.
  destruct (String.length s1 <? String.length s2)%nat eqn:Hlt.
  - apply Nat.ltb_lt in Hlt.
    destruct (String.length s1 =? 0)%nat eqn:Hz.
    + apply Nat.eqb_eq in Hz. lia.
    + pose proof (lev_rows_last_within s2 s1) as H. unfold within, gap in H. lia.
  - apply Nat.ltb_ge in Hlt.
    destruct (String.length s2 =? 0)%nat eqn:Hz.
    + apply Nat.eqb_eq in Hz. lia.
    + pose proof (lev_rows_last_within s1 s2) as H. unfold within, gap in H. lia.
Qed.

Lemma length_append (a b : string) :
  String.length (a ++ b) = (String.length a + String.length b)%nat.
Proof. induction a as [|x a IH]; simpl; [reflexivity | now rewrite IH]. Qed.

Lemma get_app_length (pre s : string) (c : ascii) :
  String.get (String.length pre) (pre ++ String c s) = Some c.
Proof. induction pre as [|x pre IH]; simpl; [reflexivity | exact IH]. Qed.

Lemma lev_row_diagonal (c1 : ascii) (i : nat) (s2 : string) (prev : list nat)
    (last j : nat) :
  ((j <= i)%nat -> String.get (i - j) s2 = Some c1) ->
  row_rel (on_diagonal i) j prev -> on_diagonal (S i) j last ->
  row_rel (on_diagonal (S i)) (S j) (lev_row c1 s2 prev last).
Proof.
  revert prev last j. induction s2 as [|c2 s2 IH]; intros prev last j Hget Hprev Hlast;
    [now destruct prev |].
  destruct prev as [|pj [|pj1 prev]]; simpl; auto.
  destruct Hprev as (Hpj & Hpj1 & Hprev).
  assert (Hv : on_diagonal (S i) (S j)
            (Nat.min (Nat.min (S pj1) (S last))
               (pj + (if Ascii.eqb c1 c2 then 0 else 1)))).
  { unfold on_diagonal, gap in *.
    destruct (Ascii.eqb c1 c2) eqn:Hc; [lia |].
    destruct (Nat.eq_dec j i) as [-> | Hne]; [| lia].
    rewrite Nat.sub_diag in Hget. simpl in Hget.
    injection (Hget (Nat.le_refl i)) as ->. now rewrite Ascii.eqb_refl in Hc. }
  split; [exact Hv |]. apply IH; [| now split | exact Hv].
  intros Hle. specialize (Hget ltac:(lia)).
  replace (i - j)%nat with (S (i - S j)) in Hget by lia. exact Hget.
Qed.

Lemma lev_rows_diagonal (pre s1 : string) (prev : list nat) :
  length prev = S (String.length (pre ++ s1)) ->
  row_rel (on_diagonal (String.length pre)) 0 prev ->
  length (lev_rows s1 (pre ++ s1) (String.length pre) prev)
    = S (String.length (pre ++ s1)) /\
  row_rel (on_diagonal (String.length (pre ++ s1))) 0
    (lev_rows s1 (pre ++ s1) (String.length pre) prev).
Proof.
  revert pre prev. induction s1 as [|c1 s1 IH]; intros pre prev Hlen Hrow.
  - simpl. now rewrite append_nil_r in *.
  - simpl lev_rows.
    assert (Heq : pre ++ String c1 s1 = (pre ++ String c1 "") ++ s1)
      by now rewrite append_assoc.
    assert (Hl : S (String.length pre) = String.length (pre ++ String c1 ""))
      by (rewrite length_append; simpl; lia).
    assert (Hget : String.get (String.length pre) (pre ++ String c1 s1) = Some c1)
      by apply get_app_length.
    rewrite Heq in Hlen, Hget |- *. rewrite Hl. apply IH.
    + simpl. rewrite lev_row_length; [reflexivity | exact Hlen].
    + rewrite <- Hl. split; [unfold on_diagonal, gap; lia |].
      apply lev_row_diagonal; [| exact Hrow | unfold on_diagonal, gap; lia].
      intros _. now rewrite Nat.sub_0_r.
Qed.

Lemma seq_diagonal (j n : nat) : row_rel (on_diagonal 0) j (seq j n).
Proof.
  revert j. induction n as [|n IH]; intros j; simpl; [exact I |].
  split; [unfold on_diagonal, gap; lia | apply IH].
Qed.

Lemma lev_self (s : string) : levenshtein_distance s s = 0%nat.
Proof.
  unfold levenshtein_distance. rewrite Nat.ltb_irrefl.
  destruct (String.length s =? 0)%nat eqn:Hz; [now apply Nat.eqb_eq in Hz |].
  destruct (lev_rows_diagonal "" s (seq 0 (S (String.length s))))
    as [Hlen Hrow]; [apply length_seq | apply seq_diagonal |].
  change ("" ++ s) with s in Hlen, Hrow.
  change (String.length "") with 0%nat in Hlen, Hrow.
  apply (row_rel_last _ 0 _ 0%nat) in Hrow.
  - rewrite Hlen in Hrow. unfold on_diagonal, gap in Hrow.
    rewrite Hrow. lia.
  - intros Hnil. now rewrite Hnil in Hlen.
Qed.

(** X2. The distance of a string to itself is 0. *)
Theorem levenshtein_distance_refl (s : string) : levenshtein_distance s s = 0%nat.
Proof. apply lev_self. Qed.

(** ** common_prefix_len and is_matching_title *)

Lemma common_prefix_len_refl (s : string) :
  common_prefix_len s s = String.length s.
Proof.
  induction s as [|c s IH]; simpl; [reflexivity |].
  now rewrite Ascii.eqb_refl, IH.
Qed.

Lemma common_prefix_len_le (a b : string) :
  (common_prefix_len a b <= Nat.min (String.length a) (String.length b))%nat.
Proof.
  revert b. induction a as [|x a IH]; intros [|y b]; simpl; try lia.
  specialize (IH b). destruct (Ascii.eqb x y); lia.
Qed.

Lemma lower_length (s : string) : String.length (Str.lower s) = String.length s.
Proof. induction s as [|c s IH]; simpl; [reflexivity | now rewrite IH]. Qed.

Lemma str_min_refl (s : string) : Str.min s s = s.
Proof. unfold Str.min. now destruct (String.ltb s s). Qed.

Lemma int_mul_total_floor (n : nat) :
  (n < 4096)%nat ->
  Float.int_mul_total (Z.of_nat n) (Float.dec 85 100) = 85 * Z.of_nat n / 100 /\
  Float.int_mul_total (Z.of_nat n) (Float.dec 15 100) = 15 * Z.of_nat n / 100 /\
  Float.int_mul_total (Z.of_nat n) (Float.dec 25 100) = 25 * Z.of_nat n / 100.
Proof.
  intros Hn. destruct (int_mul_floor n Hn) as (H1 & H2 & H3).
  unfold Float.int_mul_total. now rewrite H1, H2, H3.
Qed.

(** X3. A title is accepted as a match of itself whenever it ends with
    the expected extension, case aside (for titles shorter than 4096
    characters, the lengths for which the binary64 thresholds were
    checked). *)
Theorem is_matching_title_refl (title expected_ext : string) :
  (String.length title < 4096)%nat ->
  Str.endswith (Str.lower title) (Str.lower expected_ext) = true ->
  is_matching_title title title expected_ext = true.
Proof.
  intros Hlen Hends. unfold is_matching_title.
  rewrite Hends, lev_self, common_prefix_len_refl, str_min_refl.
  rewrite Z.sub_diag. simpl negb. cbv iota.
  unfold Str.len. rewrite lower_length.
  destruct (int_mul_total_floor (String.length title) Hlen) as (H85 & H15 & H25).
  rewrite H85, H15, H25.
  assert (H0 : 0 <= Z.of_nat (String.length title)) by lia.
  destruct (30 <=? Z.of_nat (String.length title)).
  - repeat (apply andb_true_iff; split); apply Z.leb_le; simpl Z.abs;
      try (apply Z.div_pos; lia).
    apply Z.div_le_upper_bound; lia.
  - apply andb_true_iff; split; apply Z.leb_le; simpl Z.abs; [lia |].
    apply Z.div_le_upper_bound; lia.
Qed.

Lemma is_matching_title_refl_example :
  is_matching_title "IMG_01.JPG" "IMG_01.JPG" ".jpg" = true.
Proof.
  apply (is_matching_title_refl "IMG_01.JPG" ".jpg"); [simpl; lia | reflexivity].
Defined.

(** ** The truncation sweep *)






(** ** The search: what it returns and what it misses *)

Section SearchMore.

Variable accept : string -> string -> string -> bool.
Variables (dir_path base_name media_ext num_suffix : string).
Variable json_files : list string.
Variable json_titles : gmap string string.
Variable used_jsons : gset string.

Local Abbreviation probe' :=
  (probe accept dir_path base_name media_ext json_titles used_jsons).
Local Abbreviation fits :=
  (candidate_fits dir_path json_files json_titles used_jsons).



(** What one pattern adds to the candidates: every free file that fits
    it, none with the expected title. *)
Lemma scan_pattern_candidates (pats : list string) (pattern : string)
    (files : list string) (cands cands' : list candidate) :
  In pattern pats -> incl files json_files ->
  scan_pattern dir_path base_name media_ext json_titles used_jsons
    pattern files cands = Next cands' ->
  (Forall (fits pats) cands -> Forall (fits pats) cands')
  /\ (forall c, In c cands -> In c cands')
  /\ (forall file,
        In file files ->
        Fnmatch.fnmatch (Str.lower file) (Str.lower pattern) = true ->
        Path.join dir_path file ∉ used_jsons ->
        Str.lower (title_of json_titles file)
        <> Str.lower (expected_title base_name media_ext)
        /\ exists dist,
             In (Path.join dir_path file, title_of json_titles file, dist) cands').
Proof.
  intros Hpat. revert cands. induction files as [|file files IH];
    intros cands Hsub H; simpl in H.
  - injection H as <-. split; [auto |]. split; [auto |]. intros f [].
  - assert (Hsub' : incl files json_files) by (intros x Hx; apply Hsub; now right).
    assert (Hskip :
      scan_pattern dir_path base_name media_ext json_titles used_jsons
        pattern files cands = Next cands' ->
      (Fnmatch.fnmatch (Str.lower file) (Str.lower pattern) = false
       \/ Path.join dir_path file ∈ used_jsons) ->
      (Forall (fits pats) cands -> Forall (fits pats) cands')
      /\ (forall c, In c cands -> In c cands')
      /\ (forall f,
            In f (file :: files) ->
            Fnmatch.fnmatch (Str.lower f) (Str.lower pattern) = true ->
            Path.join dir_path f ∉ used_jsons ->
            Str.lower (title_of json_titles f)
            <> Str.lower (expected_title base_name media_ext)
            /\ exists dist,
                 In (Path.join dir_path f, title_of json_titles f, dist) cands')).
    { intros Hs Hwhy. destruct (IH cands Hsub' Hs) as (H1 & H2 & H3).
      split; [exact H1 |]. split; [exact H2 |].
      intros f [<- | Hin] Hmf Hfree; [| now apply H3].
      destruct Hwhy as [Hno | Hin']; [congruence | contradiction]. }
    destruct (Fnmatch.fnmatch (Str.lower file) (Str.lower pattern)) eqn:Hm;
      [| apply Hskip; auto].
    case_bool_decide as Hused; [apply Hskip; auto |].
    destruct (String.eqb _ _) eqn:Heq; [discriminate |].
    apply String.eqb_neq in Heq.
    destruct (IH _ Hsub' H) as (H1 & H2 & H3).
    split; [| split].
    + intros Hc. apply H1. apply Forall_app. split; [exact Hc |].
      constructor; [| constructor].
      exists file, pattern. repeat split; auto. apply Hsub. now left.
    + intros c Hc. apply H2. apply in_or_app. now left.
    + intros f [<- | Hin] Hmf Hfree; [| now apply H3].
      split; [exact Heq |]. eexists. apply H2. apply in_or_app. right. now left.
Qed.

Lemma scan_patterns_candidates (all pats : list string)
    (cands cands' : list candidate) :
  incl pats all ->
  scan_patterns dir_path base_name media_ext json_files json_titles used_jsons
    pats cands = Next cands' ->
  (Forall (fits all) cands -> Forall (fits all) cands')
  /\ (forall c, In c cands -> In c cands')
  /\ (forall pattern file,
        In pattern pats -> In file json_files ->
        Fnmatch.fnmatch (Str.lower file) (Str.lower pattern) = true ->
        Path.join dir_path file ∉ used_jsons ->
        Str.lower (title_of json_titles file)
        <> Str.lower (expected_title base_name media_ext)
        /\ exists dist,
             In (Path.join dir_path file, title_of json_titles file, dist) cands').
Proof.
  revert cands. induction pats as [|q pats IH]; intros cands Hsub H; simpl in H.
  - injection H as <-. split; [auto |]. split; [auto |]. intros ? ? [].
  - destruct (scan_pattern _ _ _ _ _ q json_files cands) as [r | c] eqn:Hs;
      [discriminate |].
    apply (scan_pattern_candidates all) in Hs as (A1 & A2 & A3);
      [| apply Hsub; now left | apply incl_refl].
    destruct (IH c ltac:(intros x Hx; apply Hsub; now right) H) as (B1 & B2 & B3).
    split; [auto | split; [auto |]].
    intros pattern file [<- | Hp] Hin Hm Hfree; [| now apply (B3 pattern)].
    destruct (A3 file Hin Hm Hfree) as (Hne & dist & Hc).
    split; [exact Hne |]. exists dist. now apply B2.
Qed.


Lemma first_accepted_none (cands : list candidate) (jp title : string) (dist : nat) :
  first_accepted accept base_name media_ext cands = None ->
  In (jp, title, dist) cands ->
  accept title (expected_title base_name media_ext) media_ext = false.
Proof.
  induction cands as [|[[jp' title'] dist'] cands IH]; simpl; intros H Hin;
    [destruct Hin |].
  destruct (accept title' _ media_ext) eqn:Ha; [discriminate |].
  destruct Hin as [[= -> -> ->] | Hin]; [exact Ha | now apply IH].
Qed.


Lemma sweep_files_none (pattern : string) (files : list string) (file : string) :
  sweep_files accept dir_path base_name media_ext json_titles used_jsons
    pattern files = None ->
  In file files -> probe' pattern file = false.
Proof.
  rewrite sweep_files_find.
  destruct (List.find _ files) as [x|] eqn:Hf; [discriminate |].
  intros _ Hin. exact (List.find_none _ _ Hf _ Hin).
Qed.


Lemma sweep_none (name : string) (lengths : list Z) (l : Z) (file : string) :
  sweep accept dir_path base_name media_ext json_files json_titles used_jsons
    name lengths = None ->
  In l lengths -> In file json_files ->
  probe' (Str.take (Z.to_nat l) name ++ "*.json") file = false.
Proof.
  induction lengths as [|x lengths IH]; simpl; intros H Hl Hin; [destruct Hl |].
  destruct (sweep_files _ _ _ _ _ _ _ json_files) as [q|] eqn:Hs; [discriminate |].
  destruct Hl as [-> | Hl]; [| now apply IH].
  eapply sweep_files_none; eauto.
Qed.


Lemma find_none sv al f d :
  find_misnamed_json_with accept dir_path base_name media_ext num_suffix
    json_files json_titles used_jsons sv al f d = inr None ->
  (forall pattern file,
     In pattern (patterns base_name media_ext num_suffix sv) ->
     In file json_files -> probe' pattern file = false)
  /\ (exists ls,
        sweep_lengths (Str.len base_name) f d = inr ls /\
        forall l file, In l ls -> In file json_files ->
          probe' (Str.take (Z.to_nat l) base_name ++ "*.json") file = false)
  /\ (exists ls,
        sweep_lengths (Str.len (base_name ++ media_ext)) f d = inr ls /\
        forall l file, In l ls -> In file json_files ->
          probe' (Str.take (Z.to_nat l) (base_name ++ media_ext) ++ "*.json") file
          = false).
Proof.
  unfold find_misnamed_json_with.
  destruct (scan_patterns _ _ _ _ _ _ _ _) as [q | cands] eqn:Hs; [discriminate |].
  apply (scan_patterns_candidates _ _ _ _ (incl_refl _)) in Hs as (_ & _ & Hall).
  destruct (first_accepted _ _ _ cands) as [q|] eqn:Hf; [discriminate |].
  destruct (sweep_lengths (Str.len base_name) f d) as [e | ls] eqn:Hls;
        cbv beta iota delta [bind];
    [discriminate |].
  destruct (sweep _ _ _ _ _ _ _ base_name ls) as [q|] eqn:Hw; [discriminate |].
  destruct (sweep_lengths (Str.len (base_name ++ media_ext)) f d) as [e | ls']
          eqn:Hls'; cbv beta iota delta [bind];
    [discriminate |].
  intros [= Hw']. split; [| split].
  - intros pattern file Hpat Hin. unfold probe.
    destruct (Fnmatch.fnmatch (Str.lower file) (Str.lower pattern)) eqn:Hm;
      [| reflexivity].
    case_bool_decide as Hused; [reflexivity |]. simpl.
    destruct (Hall pattern file Hpat Hin Hm Hused) as (Hne & dist & Hc).
    apply String.eqb_neq in Hne. rewrite Hne. simpl.
    eapply first_accepted_none; eauto.
  - exists ls. split; [reflexivity |]. intros l file Hl Hin.
    eapply sweep_none; eauto.
  - exists ls'. split; [reflexivity |]. intros l file Hl Hin.
    eapply sweep_none; eauto.
Qed.

End SearchMore.




(** X7. The search reports no match only when it has probed in vain:
    no sidecar of the listing that is free and fits a pattern of the
    pattern pass, or a truncated prefix of either sweep, has the expected
    title or is accepted by [is_matching_title]. *)
Theorem find_misnamed_json_none
    (dir_path base_name media_ext num_suffix : string)
    (json_files : list string) (json_titles : gmap string string)
    (used_jsons : gset string) (sv : list string) (al f : spec_float) (d : Z) :
  find_misnamed_json dir_path base_name media_ext num_suffix json_files
    json_titles used_jsons sv al f d = inr None ->
  (forall pattern file,
     In pattern (patterns base_name media_ext num_suffix sv) ->
     In file json_files ->
     probe is_matching_title dir_path base_name media_ext json_titles used_jsons
       pattern file = false)
  /\ (exists ls,
        sweep_lengths (Str.len base_name) f d = inr ls /\
        forall l file, In l ls -> In file json_files ->
          probe is_matching_title dir_path base_name media_ext json_titles
            used_jsons (Str.take (Z.to_nat l) base_name ++ "*.json") file = false)
  /\ (exists ls,
        sweep_lengths (Str.len (base_name ++ media_ext)) f d = inr ls /\
        forall l file, In l ls -> In file json_files ->
          probe is_matching_title dir_path base_name media_ext json_titles
            used_jsons (Str.take (Z.to_nat l) (base_name ++ media_ext) ++ "*.json")
            file = false).
Proof. apply find_none. Qed.

(** A sidecar with the right title under a name no pattern reaches. *)
Lemma find_misnamed_json_none_example :
  find_misnamed_json "d" "IMG_01" ".jpg" "" ["export-0001.json"]
    {[ "export-0001.json" := "IMG_01.jpg" ]} ∅
    default_suffix_variants avg_30 factor_07 20 = inr None
  /\ Forall (fun pattern =>
        probe is_matching_title "d" "IMG_01" ".jpg"
          {[ "export-0001.json" := "IMG_01.jpg" ]} ∅ pattern "export-0001.json"
        = false)
       (patterns "IMG_01" ".jpg" "" default_suffix_variants).
Proof.
  assert (Hnone : find_misnamed_json "d" "IMG_01" ".jpg" "" ["export-0001.json"]
                    {[ "export-0001.json" := "IMG_01.jpg" ]} ∅
                    default_suffix_variants avg_30 factor_07 20 = inr None)
    by (vm_compute; reflexivity).
  split; [exact Hnone |].
  apply Forall_forall. intros pattern Hp. apply list_elem_of_In in Hp.
  apply (proj1 (find_misnamed_json_none "d" "IMG_01" ".jpg" "" ["export-0001.json"]
                  {[ "export-0001.json" := "IMG_01.jpg" ]} ∅
                  default_suffix_variants avg_30 factor_07 20 Hnone));
    [exact Hp | now left].
Defined.





(** A step divisor of zero makes the search raise as soon as it gets to
    the first sweep. *)
Lemma find_misnamed_json_zero_divisor :
  find_misnamed_json "d" "IMG_01" ".jpg" "" [] ∅ ∅ core_variants avg_30 factor_07 0
  = inl Float.ZeroDivisionError.
Proof. vm_compute. reflexivity. Qed.

(** ** custom_media_sort and sorted *)

Lemma key_ltb_rank (a b : sort_key) : key_ltb a b = true -> rank_le a b.
Proof.
  destruct a as [[a1 a2] a3], b as [[b1 b2] b3]. unfold key_ltb, rank_le. simpl.
  destruct a1, b1; simpl; try discriminate; auto;
    destruct (Z.eqb_spec a2 b2); intros H; right; split; auto; try lia;
    apply Z.ltb_lt in H; lia.
Qed.

Lemma key_ltb_false_rank (a b : sort_key) : key_ltb b a = false -> rank_le a b.
Proof.
  destruct a as [[a1 a2] a3], b as [[b1 b2] b3]. unfold key_ltb, rank_le. simpl.
  destruct a1, b1; simpl; try discriminate; auto;
    destruct (Z.eqb_spec b2 a2); intros H; right; split; auto; try lia;
    apply Z.ltb_ge in H; lia.
Qed.

Lemma rank_le_trans (a b c : sort_key) : rank_le a b -> rank_le b c -> rank_le a c.
Proof.
  unfold rank_le. intros [[? ?] | [? ?]] [[? ?] | [? ?]];
    try (left; split; congruence); try congruence.
  right. split; [congruence | lia].
Qed.

Lemma insert_by_perm (f : string -> sort_key) (x : string) (l : list string) :
  Permutation (insert_by f x l) (x :: l).
Proof.
  induction l as [|y l IH]; simpl; [reflexivity |].
  destruct (key_ltb (f y) (f x)); [| reflexivity].
  rewrite IH. apply perm_swap.
Qed.

Lemma sorted_perm (f : string -> sort_key) (l : list string) :
  Permutation (sorted f l) l.
Proof.
  induction l as [|x l IH]; simpl; [reflexivity |].
  unfold sorted in *. simpl. rewrite insert_by_perm. now constructor.
Qed.

Lemma insert_by_sorted (f : string -> sort_key) (x : string) (l : list string) :
  StronglySorted (fun a b => rank_le (f a) (f b)) l ->
  StronglySorted (fun a b => rank_le (f a) (f b)) (insert_by f x l).
Proof.
  induction 1 as [|y l Hl IH Hy]; simpl; [repeat constructor |].
  destruct (key_ltb (f y) (f x)) eqn:Hk.
  - constructor; [exact IH |].
    rewrite (insert_by_perm f x l). constructor; [| exact Hy].
    now apply key_ltb_rank.
  - apply key_ltb_false_rank in Hk.
    constructor; [now constructor |].
    constructor; [exact Hk |].
    eapply Forall_impl; [exact Hy |]. intros z Hz. simpl in Hz.
    eapply rank_le_trans; eauto.
Qed.

(** X9. The media files are processed in an order that is a
    rearrangement of the listing in which every file without a duplicate
    suffix comes before every file with one, and the files with a suffix
    come by ascending duplicate number. *)
Theorem sorted_custom_media_sort (l : list string) :
  Permutation (sorted custom_media_sort l) l /\
  StronglySorted
    (fun a b => rank_le (custom_media_sort a) (custom_media_sort b))
    (sorted custom_media_sort l).
Proof.
  split; [apply sorted_perm |].
  induction l as [|x l IH]; [constructor |].
  unfold sorted in *. simpl. now apply insert_by_sorted.
Qed.

(** ** load_json_titles *)

Lemma load_json_titles_foldl (fs : gmap string content) (dir_path : string)
    (json_files : list string) (cache : gmap string string) (jf : string) :
  foldl (fun cache jf => <[jf := get_json_title fs (Path.join dir_path jf)]> cache)
        cache json_files !! jf
  = if bool_decide (jf ∈ json_files)
    then Some (get_json_title fs (Path.join dir_path jf))
    else cache !! jf.
Proof.
  revert cache. induction json_files as [|x l IH]; intros cache; cbn [foldl].
  - rewrite bool_decide_eq_false_2; [reflexivity | apply not_elem_of_nil].
  - rewrite IH. destruct (decide (jf ∈ l)) as [Hin | Hnin].
    + rewrite !bool_decide_eq_true_2; auto. now right.
    + rewrite (bool_decide_eq_false_2 (jf ∈ l)) by assumption.
      destruct (decide (x = jf)) as [-> | Hne].
      * rewrite bool_decide_eq_true_2 by now left. apply lookup_insert_eq.
      * rewrite bool_decide_eq_false_2; [now apply lookup_insert_ne |].
        intros [-> | H]%elem_of_cons; congruence.
Qed.

(** X10. The title cache holds, for each sidecar of the listing, what
    [get_json_title] reads at its path, and the empty title for any other
    name; a sidecar that is missing, unreadable or without a title field
    is cached with the empty title. *)
Theorem load_json_titles_lookup (fs : gmap string content) (dir_path : string)
    (json_files : list string) (jf : string) :
  (In jf json_files ->
   title_of (load_json_titles fs dir_path json_files) jf
   = get_json_title fs (Path.join dir_path jf))
  /\ (~ In jf json_files ->
      title_of (load_json_titles fs dir_path json_files) jf = "")
  /\ (fs !! Path.join dir_path jf = None
      \/ fs !! Path.join dir_path jf = Some Opaque
      \/ fs !! Path.join dir_path jf = Some (Json None) ->
      title_of (load_json_titles fs dir_path json_files) jf = "").
Proof.
  unfold title_of, load_json_titles. rewrite load_json_titles_foldl.
  split; [| split].
  - intros Hin. rewrite bool_decide_eq_true_2; [reflexivity |].
    now apply list_elem_of_In.
  - intros Hnin. rewrite bool_decide_eq_false_2; [reflexivity |].
    now rewrite list_elem_of_In.
  - intros Hfs. case_bool_decide; [| reflexivity]. simpl.
    unfold get_json_title. now destruct Hfs as [-> | [-> | ->]].
Qed.

Lemma load_json_titles_lookup_example :
  title_of (load_json_titles taken_fs "d"
              ["IMG_01.jpg.supplemental-metadata.json"; "IMG_01.jpg.suppl.json"])
    "IMG_01.jpg.suppl.json"
  = get_json_title taken_fs (Path.join "d" "IMG_01.jpg.suppl.json").
Proof.
  apply (proj1 (load_json_titles_lookup taken_fs "d"
                  ["IMG_01.jpg.supplemental-metadata.json"; "IMG_01.jpg.suppl.json"]
                  "IMG_01.jpg.suppl.json")).
  right. now left.
Defined.

(** ** The body of the loop, in either mode *)

Lemma os_rename_size (fs fs' : gmap string content) (src dst : string) :
  fs !! dst = None -> os_rename fs src dst = Some fs' -> size fs' = size fs.
Proof.
  unfold os_rename. destruct (fs !! src) as [c|] eqn:Hsrc; [| discriminate].
  intros Hdst [= <-].
  rewrite map_size_insert_None
    by (rewrite lookup_delete_None; now right).
  rewrite map_size_delete_Some by eauto.
  assert (size fs <> 0%nat).
  { intros Hz. apply map_size_empty_inv in Hz. subst fs.
    now rewrite lookup_empty in Hsrc. }
  lia.
Qed.

Lemma os_rename_other (fs fs' : gmap string content) (src dst path : string) :
  os_rename fs src dst = Some fs' -> path <> src -> path <> dst ->
  fs' !! path = fs !! path.
Proof.
  unfold os_rename. destruct (fs !! src) as [c|]; [| discriminate].
  intros [= <-] Hsrc Hdst.
  rewrite lookup_insert_ne by congruence. now rewrite lookup_delete_ne by congruence.
Qed.

Section Step.

Variables (subdir : string) (json_files : list string).
Variable json_titles : gmap string string.
Variables (dry_run do_embed create_backup : bool).
Variable t : tuning.

(** One pass through the body of the loop: one outcome for the media
    file, as many files as before, and no file touched but sidecars of the
    listing. *)
Lemma process_media_step (st st' : session) (file : string) :
  process_media subdir json_files json_titles dry_run do_embed create_backup t st file
    = inr st' ->
  (exists o, outcomes st' = (outcomes st ++ [o])%list /\
             media_of o = Path.join subdir file)
  /\ size (fs st') = size (fs st)
  /\ (forall path,
        is_Some (fs st !! path) ->
        (forall f, In f json_files -> path <> Path.join subdir f) ->
        fs st' !! path = fs st !! path)
  /\ (dry_run = true ->
      fs st' = fs st /\
      exists evs, log st' = (log st ++ evs)%list /\ Forall simulated evs).
Proof.
  unfold process_media.
  destruct (Path.splitext file) as [media_name media_ext].
  destruct (parse_duplicate_number media_name) as [base_name num_suffix].
  destruct (find_misnamed_json _ _ _ _ _ _ _ _ _ _ _) as [e | r] eqn:Hfind;
    cbv beta iota delta [bind]; [discriminate |].
  intros [= <-].
  destruct (truthy r) as [json_path|] eqn:Hr.
  - apply truthy_Some in Hr as [-> _].
    apply find_sound in Hfind as (f & Hhit & ->).
    assert (Hin : In f json_files)
      by (destruct Hhit as [(? & _) | (? & _)]; assumption).
    destruct (negb (String.eqb _ _)); simpl.
    + case_bool_decide as Htaken; simpl.
      * split; [eexists; split; reflexivity |]. split; [reflexivity |].
        split; [reflexivity |]. intros _. split; [reflexivity |].
        eexists. split; [reflexivity |]. repeat constructor.
      * destruct dry_run; simpl.
        -- split; [eexists; split; reflexivity |]. split; [reflexivity |].
           split; [reflexivity |]. intros _. split; [reflexivity |].
           eexists. split; [reflexivity |].
           destruct do_embed; simpl; repeat constructor.
        -- assert (Hfree : fs st !! preferred_path subdir base_name num_suffix media_ext
                           = None).
           { destruct (fs st !! _) eqn:E; [| reflexivity].
             exfalso. apply Htaken. eauto. }
           destruct (os_rename (fs st) _ _) as [fs'|] eqn:Hren; simpl.
           ++ split; [eexists; split; reflexivity |].
              split; [eapply os_rename_size; eauto |].
              split; [| discriminate].
              intros path Hsome Hother.
              eapply os_rename_other; eauto.
              intros ->. rewrite Hfree in Hsome. now destruct Hsome.
           ++ split; [eexists; split; reflexivity |]. split; [reflexivity |].
              split; [reflexivity | discriminate].
    + split; [eexists; split; reflexivity |]. split; [reflexivity |].
      split; [reflexivity |]. intros ->. split; [reflexivity |].
      eexists. split; [reflexivity |].
      destruct do_embed; simpl; repeat constructor.
  - simpl. split; [eexists; split; reflexivity |]. split; [reflexivity |].
    split; [reflexivity |]. intros _. split; [reflexivity |].
    eexists. split; [reflexivity |]. repeat constructor.
Qed.

Lemma process_files_run (media_files : list string) (st : session) :
  let r := process_files subdir json_files json_titles dry_run do_embed
             create_backup t media_files st in
  size (fs r.1) = size (fs st)
  /\ (forall path,
        is_Some (fs st !! path) ->
        (forall f, In f json_files -> path <> Path.join subdir f) ->
        fs r.1 !! path = fs st !! path)
  /\ (dry_run = true ->
      fs r.1 = fs st /\
      exists evs, log r.1 = (log st ++ evs)%list /\ Forall simulated evs)
  /\ (r.2 = None ->
      map media_of (outcomes r.1)
      = (map media_of (outcomes st) ++ map (Path.join subdir) media_files)%list).
Proof.
  revert st. induction media_files as [|file rest IH]; intros st; simpl.
  - split; [reflexivity |]. split; [reflexivity |]. split.
    + intros _. split; [reflexivity |]. exists []. now rewrite app_nil_r.
    + intros _. now rewrite app_nil_r.
  - destruct (process_media _ _ _ _ _ _ _ st file) as [e | st'] eqn:Hstep; simpl.
    + split; [reflexivity |]. split; [reflexivity |]. split; [| discriminate].
      intros _. split; [reflexivity |]. exists []. now rewrite app_nil_r.
    + apply process_media_step in Hstep as ((o & Ho & Hm) & Hsize & Hkeep & Hdry).
      destruct (IH st') as (IH1 & IH2 & IH3 & IH4).
      split; [congruence |]. split; [| split].
      * intros path Hsome Hother. rewrite IH2; auto.
        rewrite Hkeep; auto.
      * intros Hd. destruct (Hdry Hd) as (Hfs & evs & Hlog & Hsim).
        destruct (IH3 Hd) as (Hfs' & evs' & Hlog' & Hsim').
        split; [congruence |].
        exists (evs ++ evs')%list. split.
        -- now rewrite Hlog', Hlog, app_assoc.
        -- now apply Forall_app.
      * intros Hnone. rewrite (IH4 Hnone), Ho, map_app. simpl.
        now rewrite Hm, <- app_assoc.
Qed.

End Step.

(** X11. A simulation changes nothing: after a run of a directory with
    [dry_run] set the file system is the one it started with, and the log
    holds no rename, done or failed, and no embed call without the dry-run
    flag. *)
Theorem dry_run_changes_nothing
    (subdir : string) (files : list string) (fs0 : gmap string content)
    (t : tuning) (do_embed create_backup : bool) :
  let st := (process_directory subdir files fs0 true t do_embed create_backup).1 in
  fs st = fs0 /\ Forall simulated (log st).
Proof.
  intros st. subst st. unfold process_directory.
  match goal with
  | |- context [process_files ?a ?b ?c ?d ?e ?f ?g ?h ?i] =>
      destruct (process_files_run a b c d e f g h i) as (_ & _ & Hdry & _)
  end.
  destruct (Hdry eq_refl) as (Hfs & evs & Hlog & Hsim).
  split; [exact Hfs |]. rewrite Hlog. simpl. exact Hsim.
Qed.



(** X13. A run that ends without an exception has decided every media
    file of the listing exactly once, in the order of the sort: the
    outcomes, read by media path, are the sorted media files. *)
Theorem one_outcome_per_media_file
    (subdir : string) (files : list string) (fs0 : gmap string content)
    (dry_run : bool) (t : tuning) (do_embed create_backup : bool) :
  (process_directory subdir files fs0 dry_run t do_embed create_backup).2 = None ->
  map media_of
    (outcomes (process_directory subdir files fs0 dry_run t do_embed create_backup).1)
  = map (Path.join subdir)
      (sorted custom_media_sort (filter (fun f => Is_true (is_media_file f)) files)).
Proof.
  unfold process_directory.
  match goal with
  | |- context [process_files ?a ?b ?c ?d ?e ?f ?g ?h ?i] =>
      destruct (process_files_run a b c d e f g h i) as (_ & _ & _ & Hout)
  end.
  intros Hnone. now rewrite (Hout Hnone).
Qed.

Lemma one_outcome_per_media_file_example :
  map media_of
    (outcomes (process_directory "d" twin_files twin_fs false default_tuning true false).1)
  = ["d/IMG_01.jpg"; "d/IMG_01(1).jpg"].
Proof.
  apply (one_outcome_per_media_file "d" twin_files twin_fs false default_tuning
           true false).
  vm_compute. reflexivity.
Defined.

(** ** No exception in a run *)

Lemma take_drop (n : nat) (s : string) : Str.take n s ++ Str.drop n s = s.
Proof.
  revert s. induction n as [|n IH]; intros [|c s]; simpl; try reflexivity.
  now rewrite IH.
Qed.

Lemma splitext_append (p : string) :
  (Path.splitext p).1 ++ (Path.splitext p).2 = p.
Proof.
  unfold Path.splitext. destruct (Path.rfind "." p) as [k|]; simpl.
  - destruct (_ && _); simpl; [apply take_drop | apply append_nil_r].
  - apply append_nil_r.
Qed.






Section NoRaise.

Variables (subdir : string) (json_files : list string).
Variable json_titles : gmap string string.
Variables (dry_run do_embed create_backup : bool).
Variable t : tuning.

Hypothesis Hfactor : min_prefix_factor t = factor_07 \/ min_prefix_factor t = factor_075.
Hypothesis Hdivisor : step_divisor t <> 0.



End NoRaise.




(** ** extract_suffix *)

Lemma split_dot_nonempty (s : string) : split_dot s <> [].
Proof.
  induction s as [|c s IH]; simpl; [discriminate |].
  destruct (Ascii.eqb c "."); [discriminate |].
  destruct (split_dot s); [congruence | discriminate].
Qed.

Lemma join_split_dot (s : string) : join_dot (split_dot s) = s.
Proof.
  induction s as [|c s IH]; [reflexivity |]. simpl split_dot.
  pose proof (split_dot_nonempty s) as Hne.
  destruct (Ascii.eqb_spec c ".") as [-> | Hc].
  - destruct (split_dot s) as [|p ps]; [congruence |].
    change (join_dot ("" :: p :: ps)) with ("" ++ "." ++ join_dot (p :: ps)).
    now rewrite IH.
  - destruct (split_dot s) as [|p ps]; [congruence |].
    destruct ps as [|q ps].
    + simpl in *. now rewrite IH.
    + change (join_dot (String c p :: q :: ps))
        with (String c (p ++ "." ++ join_dot (q :: ps))).
      change (join_dot (p :: q :: ps)) with (p ++ "." ++ join_dot (q :: ps)) in IH.
      now rewrite IH.
Qed.

Lemma split_dot_head (s p : string) (ps : list string) :
  split_dot s = p :: ps -> contains "." p = false.
Proof.
  revert p ps. induction s as [|c s IH]; intros p ps; simpl.
  - now intros [= <- _].
  - destruct (Ascii.eqb c ".") eqn:Hc; [now intros [= <- _] |].
    destruct (split_dot s) as [|q qs] eqn:Hs.
    + intros [= <- _]. simpl. now rewrite Hc.
    + intros [= <- _]. simpl. rewrite Hc. simpl. eapply IH; eauto.
Qed.

(** X15. A suffix is extracted only from a name with the extension
    [.json], whatever its case, and it is what lies between the first dot
    of the name and that extension: the name is the dot-free stem, a dot,
    the suffix and the extension. *)
Theorem extract_suffix_decomposes (filename suffix : string) :
  extract_suffix filename = Some suffix ->
  exists stem,
    contains "." stem = false /\
    Str.lower (Path.splitext filename).2 = ".json" /\
    filename = stem ++ "." ++ suffix ++ (Path.splitext filename).2.
Proof.
  unfold extract_suffix. pose proof (splitext_append filename) as Happ.
  destruct (Path.splitext filename) as [base ext]. simpl in *.
  destruct (String.eqb_spec (Str.lower ext) ".json") as [Hext |]; [| discriminate].
  pose proof (join_split_dot base) as Hjoin.
  destruct (split_dot base) as [|p [|q r]] eqn:Hs; try discriminate.
  intros [= <-]. exists p. split; [eapply split_dot_head; eauto |].
  split; [exact Hext |].
  change (join_dot (p :: q :: r)) with (p ++ "." ++ join_dot (q :: r)) in Hjoin.
  rewrite <- Happ, <- Hjoin. now rewrite !append_assoc.
Qed.

Lemma extract_suffix_decomposes_example :
  exists stem,
    contains "." stem = false /\
    Str.lower (Path.splitext "IMG_01.jpg.supplemental-metadata.JSON").2 = ".json" /\
    "IMG_01.jpg.supplemental-metadata.JSON"
    = stem ++ "." ++ "jpg.supplemental-metadata"
      ++ (Path.splitext "IMG_01.jpg.supplemental-metadata.JSON").2.
Proof.
  apply (extract_suffix_decomposes "IMG_01.jpg.supplemental-metadata.JSON"
           "jpg.supplemental-metadata").
  reflexivity.
Defined.

Lemma rfind_app (c : ascii) (a b : string) :
  Path.rfind c (a ++ b)
  = match Path.rfind c b with
    | Some k => Some (String.length a + k)%nat
    | None => Path.rfind c a
    end.
Proof.
  induction a as [|x a IH]; simpl.
  - now destruct (Path.rfind c b).
  - rewrite IH. now destruct (Path.rfind c b).
Qed.

Lemma rfind_contains (c : ascii) (s : string) :
  contains c s = false -> Path.rfind c s = None.
Proof.
  induction s as [|x s IH]; simpl; [reflexivity |].
  intros [Hx Hs]%orb_false_iff. now rewrite (IH Hs), Hx.
Qed.

Lemma contains_app (c : ascii) (a b : string) :
  contains c (a ++ b) = contains c a || contains c b.
Proof.
  induction a as [|x a IH]; simpl; [reflexivity |]. now rewrite IH, orb_assoc.
Qed.

Lemma take_app_length (a b : string) : Str.take (String.length a) (a ++ b) = a.
Proof. induction a as [|x a IH]; simpl; [now destruct b | now rewrite IH]. Qed.

Lemma drop_app_length (a b : string) : Str.drop (String.length a) (a ++ b) = b.
Proof. induction a as [|x a IH]; simpl; [now destruct b | exact IH]. Qed.

Lemma split_dot_cons (c : ascii) (s : string) :
  split_dot (String c s)
  = if Ascii.eqb c "." then EmptyString :: split_dot s
    else match split_dot s with
         | p :: ps => String c p :: ps
         | [] => [String c EmptyString]
         end.
Proof. reflexivity. Qed.

Lemma split_dot_app (stem rest : string) :
  contains "." stem = false ->
  split_dot (stem ++ "." ++ rest) = stem :: split_dot rest.
Proof.
  induction stem as [|c stem IH]; intros Hno; [reflexivity |].
  simpl in Hno. apply orb_false_iff in Hno as [Hc Hno].
  change (String c stem ++ "." ++ rest) with (String c (stem ++ "." ++ rest)).
  rewrite split_dot_cons, Hc, (IH Hno). reflexivity.
Qed.

(** X16. Round trip: from a name of the shape [{stem}.{suffix}.json],
    the third and fourth pattern shapes of the search, where the stem is
    not empty and has no dot and neither part has a separator,
    [extract_suffix] gives the suffix back. *)
Theorem extract_suffix_of_pattern (stem suffix : string) :
  stem <> "" ->
  contains "." stem = false ->
  contains "/" stem = false ->
  contains "/" suffix = false ->
  extract_suffix (stem ++ "." ++ suffix ++ ".json") = Some suffix.
Proof.
  intros Hne Hdot Hsep Hsep'.
  assert (Hname : stem ++ "." ++ suffix ++ ".json" = (stem ++ "." ++ suffix) ++ ".json")
    by now rewrite !append_assoc.
  assert (Hsplit : Path.splitext (stem ++ "." ++ suffix ++ ".json")
                   = (stem ++ "." ++ suffix, ".json")).
  { unfold Path.splitext. rewrite Hname.
    rewrite (rfind_app "." (stem ++ "." ++ suffix) ".json").
    change (Path.rfind "." ".json") with (Some 0%nat).
    cbv beta iota. rewrite Nat.add_0_r.
    assert (Hnosep : Path.rfind "/" ((stem ++ "." ++ suffix) ++ ".json") = None).
    { apply rfind_contains. rewrite !contains_app, Hsep, Hsep'. reflexivity. }
    rewrite Hnosep. cbv beta iota.
    change (Str.drop 0 ((stem ++ "." ++ suffix) ++ ".json"))
      with ((stem ++ "." ++ suffix) ++ ".json").
    rewrite Nat.sub_0_r, take_app_length, drop_app_length.
    destruct stem as [|c stem]; [congruence |].
    simpl in Hdot. apply orb_false_iff in Hdot as [Hc _].
    simpl. now rewrite Hc. }
  unfold extract_suffix. rewrite Hsplit.
  change (String.eqb (Str.lower ".json") ".json") with true. cbv iota.
  rewrite (split_dot_app stem suffix Hdot).
  pose proof (join_split_dot suffix) as Hjoin.
  pose proof (split_dot_nonempty suffix) as Hn.
  destruct (split_dot suffix) as [|q r]; [congruence |]. now rewrite Hjoin.
Qed.

Lemma extract_suffix_of_pattern_example :
  extract_suffix ("IMG_01" ++ "." ++ "jpg.suppl" ++ ".json") = Some "jpg.suppl".
Proof.
  apply (extract_suffix_of_pattern "IMG_01" "jpg.suppl");
    [discriminate | reflexivity | reflexivity | reflexivity].
Defined.

(** ** pre_analyze *)

Lemma counter_incr_key (k x : string) (c : list (string * nat)) :
  x ∈ map fst (counter_incr k c) -> x = k \/ x ∈ map fst c.
Proof.
  induction c as [|[k' n] c IH]; simpl.
  - intros ->%list_elem_of_singleton. now left.
  - destruct (String.eqb k k'); simpl; [now right |].
    intros [-> | H]%elem_of_cons; [right; now left |].
    destruct (IH H) as [-> | H']; [now left | right; now right].
Qed.

Lemma counter_incr_NoDup (k : string) (c : list (string * nat)) :
  NoDup (map fst c) -> NoDup (map fst (counter_incr k c)).
Proof.
  induction c as [|[k' n] c IH]; simpl; intros Hnd.
  - apply NoDup_singleton.
  - apply NoDup_cons in Hnd as [Hk' Hnd].
    destruct (String.eqb_spec k k') as [-> | Hne]; simpl.
    + now apply NoDup_cons.
    + apply NoDup_cons. split; [| now apply IH].
      intros [-> | H]%counter_incr_key; congruence.
Qed.

(** The keys of the counter are distinct and none is empty. *)
Lemma count_suffixes_keys (c : list (string * nat)) (files : list string) :
  NoDup (map fst c) /\ Forall (fun k => k <> "") (map fst c) ->
  NoDup (map fst (count_suffixes c files))
  /\ Forall (fun k => k <> "") (map fst (count_suffixes c files)).
Proof.
  unfold count_suffixes.
  generalize (filter (fun f => Is_true (is_json_file f)) files). intros l.
  revert c. induction l as [|jf l IH]; intros c Hc; simpl; [exact Hc |].
  apply IH. destruct (extract_suffix jf) as [[|a s]|]; try exact Hc.
  destruct Hc as [Hnd Hne]. split; [now apply counter_incr_NoDup |].
  rewrite Forall_forall in *. intros x [-> | Hx]%counter_incr_key;
    [discriminate | now apply Hne].
Qed.

Lemma json_suffixes_keys (walk : list (list string)) (c : list (string * nat)) :
  NoDup (map fst c) /\ Forall (fun k => k <> "") (map fst c) ->
  NoDup (map fst (foldl count_suffixes c walk))
  /\ Forall (fun k => k <> "") (map fst (foldl count_suffixes c walk)).
Proof.
  revert c. induction walk as [|files walk IH]; intros c Hc; simpl; [exact Hc |].
  apply IH. now apply count_suffixes_keys.
Qed.

Lemma insert_count_perm (x : string * nat) (l : list (string * nat)) :
  Permutation (insert_count x l) (x :: l).
Proof.
  induction l as [|y l IH]; simpl; [reflexivity |].
  destruct (x.2 <? y.2)%nat; [| reflexivity].
  rewrite IH. apply perm_swap.
Qed.

Lemma sort_count_perm (c : list (string * nat)) :
  Permutation (foldr insert_count [] c) c.
Proof.
  induction c as [|x c IH]; simpl; [reflexivity |].
  rewrite insert_count_perm. now constructor.
Qed.

Lemma most_common_keys (n : nat) (c : list (string * nat)) :
  NoDup (map fst c) /\ Forall (fun k => k <> "") (map fst c) ->
  NoDup (map fst (most_common n c))
  /\ Forall (fun k => k <> "") (map fst (most_common n c))
  /\ (length (map fst (most_common n c)) <= n)%nat.
Proof.
  intros [Hnd Hne]. unfold most_common.
  assert (Hperm : Permutation (map fst (foldr insert_count [] c)) (map fst c))
    by (apply Permutation_map, sort_count_perm).
  assert (Hsub : sublist (map fst (take n (foldr insert_count [] c)))
                         (map fst (foldr insert_count [] c))).
  { change (map fst ?l) with (fst <$> l). rewrite fmap_take. apply sublist_take. }
  split; [| split].
  - eapply sublist_NoDup; [| exact Hsub]. now rewrite Hperm.
  - rewrite <- Hperm in Hne. rewrite Forall_forall in *.
    intros x Hx. apply Hne. eapply elem_of_sublist; eauto.
  - rewrite length_map, length_take. lia.
Qed.

Lemma empty_walk_lengths (walk : list (list string)) :
  Forall (fun files => files = []) walk ->
  flat_map (fun files => map Str.len (take 1000 files)) walk = []
  /\ foldl count_suffixes [] walk = [].
Proof.
  induction 1 as [|files walk -> _ [IH1 IH2]]; simpl; [auto |].
  now rewrite IH1.
Qed.

Lemma pre_analyze_pair (walk : list (list string)) :
  (min_prefix_factor (pre_analyze walk) = factor_07 /\
   step_divisor (pre_analyze walk) = 15)
  \/ (min_prefix_factor (pre_analyze walk) = factor_075 /\
      step_divisor (pre_analyze walk) = 10).
Proof.
  cbv beta iota zeta delta [pre_analyze min_prefix_factor step_divisor].
  destruct (SFltb _ _); [left | right]; now split.
Qed.

(** X17. The tuning of the pre-analysis: the suffix vocabulary is the
    three core variants, in their order, followed by at most ten others,
    none empty; no variant occurs twice; the prefix factor and the step
    divisor are 0.7 and 15, or 0.75 and 10.  On a tree without files the
    result is the core variants with the average 30, the factor 0.7 and
    the divisor 15. *)
Theorem pre_analyze_tuning (walk : list (list string)) :
  (exists common,
     suffix_variants (pre_analyze walk) = (core_variants ++ common)%list /\
     (length common <= 10)%nat /\
     Forall (fun s => s <> "") common)
  /\ NoDup (suffix_variants (pre_analyze walk))
  /\ ((min_prefix_factor (pre_analyze walk) = factor_07 /\
       step_divisor (pre_analyze walk) = 15)
      \/ (min_prefix_factor (pre_analyze walk) = factor_075 /\
          step_divisor (pre_analyze walk) = 10))
  /\ (Forall (fun files => files = []) walk ->
      pre_analyze walk
      = {| suffix_variants := core_variants; avg_len := avg_30;
           min_prefix_factor := factor_07; step_divisor := 15 |}).
Proof.
  destruct (most_common_keys 10 (foldl count_suffixes [] walk)) as (Hnd & Hne & Hlen).
  { apply json_suffixes_keys. split; constructor. }
  split; [| split; [| split]].
  - eexists. split; [reflexivity |]. split.
    + etransitivity; [apply length_filter | exact Hlen].
    + rewrite Forall_forall in *. intros x [_ Hx]%list_elem_of_filter. now apply Hne.
  - cbv beta iota zeta delta [pre_analyze suffix_variants].
    apply NoDup_app. split; [| split].
    + apply (bool_decide_unpack _). vm_compute. exact I.
    + intros x Hx [Hnot _]%list_elem_of_filter. contradiction.
    + now apply NoDup_filter.
  - apply pre_analyze_pair.
  - intros Hempty. destruct (empty_walk_lengths walk Hempty) as [H1 H2].
    unfold pre_analyze. rewrite H1, H2. reflexivity.
Qed.


(** ** common_prefix_len, once more *)

(** X4. What [common_prefix_len] returns lies between the length of the
    common prefix and the length of the shorter string, does not depend on
    the order of its arguments, and is the full length for equal strings. *)
Theorem common_prefix_len_range (a b : string) :
  (strict_prefix_len a b <= common_prefix_len a b)%nat /\
  (common_prefix_len a b <= Nat.min (String.length a) (String.length b))%nat /\
  common_prefix_len a b = common_prefix_len b a /\
  common_prefix_len a a = String.length a.
Proof.
  split; [apply strict_prefix_le_common |].
  split; [apply common_prefix_len_le |].
  split; [| apply common_prefix_len_refl].
  revert b. induction a as [|x a IH]; intros [|y b]; simpl; try reflexivity.
  rewrite (IH b), (Ascii.eqb_sym x y). reflexivity.
Qed.

(** ** Media files and sidecars *)

Lemma lower_drop (n : nat) (s : string) :
  Str.drop n (Str.lower s) = Str.lower (Str.drop n s).
Proof.
  revert s. induction n as [|n IH]; intros [|c s]; simpl; try reflexivity.
  apply IH.
Qed.

Lemma lower_char_dot (c : ascii) : Str.lower_char c = "."%char -> c = "."%char.
Proof.
  destruct c as [[] [] [] [] [] [] [] []]; vm_compute; intros H;
    try reflexivity; discriminate.
Qed.

Lemma lower_json_ext (e : string) :
  Str.lower e = ".json" ->
  Path.rfind "." e = Some 0%nat /\ String.length e = 5%nat.
Proof.
  destruct e as [|c0 [|c1 [|c2 [|c3 [|c4 [|c5 e]]]]]]; try discriminate.
  simpl. intros [= H0 H1 H2 H3 H4].
  apply lower_char_dot in H0 as ->.
  assert (Hne : forall c x, Str.lower_char c = x -> x <> "."%char ->
                  Ascii.eqb c "." = false).
  { intros c x <- Hx. apply Ascii.eqb_neq. intros ->. now apply Hx. }
  rewrite (Hne c4 _ H4), (Hne c3 _ H3), (Hne c2 _ H2), (Hne c1 _ H1)
    by discriminate.
  split; reflexivity.
Qed.

(** X19. No file is both: a name that ends with [.json], whatever its
    case, is never a media file, so the media files and the sidecars of a
    listing are disjoint. *)
Theorem sidecar_is_not_media (filename : string) :
  is_json_file filename = true -> is_media_file filename = false.
Proof.
  unfold is_json_file, Str.endswith. rewrite lower_length. simpl String.length.
  intros [Hlen Heq]%andb_true_iff.
  apply Nat.leb_le in Hlen. apply String.eqb_eq in Heq.
  rewrite lower_drop in Heq.
  pose proof (take_drop (String.length filename - 5) filename) as Hsplit.
  set (a := Str.take (String.length filename - 5) filename) in *.
  set (e := Str.drop (String.length filename - 5) filename) in *.
  destruct (lower_json_ext e Heq) as [Hdot He].
  unfold is_media_file, Path.splitext. rewrite <- Hsplit.
  rewrite rfind_app, Hdot, Nat.add_0_r.
  destruct (_ && _); simpl.
  - rewrite drop_app_length, Heq. reflexivity.
  - reflexivity.
Qed.

Lemma sidecar_is_not_media_example :
  is_media_file "IMG_01.jpg.supplemental-metadata.JSON" = false.
Proof.
  apply (sidecar_is_not_media "IMG_01.jpg.supplemental-metadata.JSON"). reflexivity.
Defined.

(** ** parse_duplicate_number, once more *)

Lemma re_match_dup_rebuilds (s g1 : string) (g2 : option string) :
  has_newline s = false ->
  re_match_dup s = Some (g1, g2) ->
  s = g1 ++ default "" g2 /\
  (g2 = None \/
   exists ds, ds <> "" /\ all_digits ds = true /\ g2 = Some ("(" ++ ds ++ ")")).
Proof.
  revert g1 g2. induction s as [|c s IH]; intros g1 g2 Hnl; rewrite re_match_dup_eq.
  - change (match_tail "") with (Some (@None string)). intros [= <- <-]. auto.
  - destruct (match_tail (String c s)) as [g|] eqn:Hg.
    + intros [= <- <-].
      apply match_tail_inv in Hg as [[? _] | (ds & Hne & Hds & Heq & ->)];
        [discriminate | | exact Hnl].
      simpl. split; [reflexivity |]. right. exists ds. now rewrite Heq.
    + cbv beta iota. simpl in Hnl. apply orb_false_iff in Hnl as [Hc Hnl].
      rewrite Hc. destruct (re_match_dup s) as [[h1 h2]|] eqn:Hs; [| discriminate].
      intros [= <- <-]. destruct (IH h1 h2 Hnl eq_refl) as [Heq Hshape].
      split; [| exact Hshape]. simpl. now rewrite <- Heq.
Qed.

Lemma re_match_dup_total (s : string) :
  has_newline s = false -> exists g1 g2, re_match_dup s = Some (g1, g2).
Proof.
  induction s as [|c s IH]; intros Hnl; rewrite re_match_dup_eq.
  - change (match_tail "") with (Some (@None string)). eauto.
  - destruct (match_tail (String c s)); [eauto |].
    cbv beta iota. simpl in Hnl. apply orb_false_iff in Hnl as [Hc Hnl].
    rewrite Hc. destruct (IH Hnl) as (g1 & g2 & ->). eauto.
Qed.

Lemma parse_rebuilds (name : string) :
  has_newline name = false ->
  exists r,
    name = r ++ (parse_duplicate_number name).2 /\
    (parse_duplicate_number name).1 = Str.strip r /\
    ((parse_duplicate_number name).2 = ""
     \/ exists ds, ds <> "" /\ all_digits ds = true /\
          (parse_duplicate_number name).2 = "(" ++ ds ++ ")").
Proof.
  intros Hnl. unfold parse_duplicate_number.
  destruct (re_match_dup_total name Hnl) as (g1 & g2 & Hm). rewrite Hm.
  apply re_match_dup_rebuilds in Hm as [Heq Hshape]; [| exact Hnl].
  exists g1. simpl. split; [| split; [reflexivity |]].
  - rewrite Heq at 1. now destruct g2.
  - destruct Hshape as [-> | (ds & Hne & Hds & ->)]; [now left |].
    right. now exists ds.
Qed.

(** X20. On a name without line breaks the split loses nothing but
    whitespace: the name is a remainder followed by the suffix, the base
    name is the remainder without the whitespace at its ends, and the
    suffix is empty or a parenthesized run of digits. *)
Theorem parse_duplicate_number_rebuilds (name : string) :
  has_newline name = false ->
  exists r,
    name = r ++ (parse_duplicate_number name).2 /\
    (parse_duplicate_number name).1 = Str.strip r /\
    ((parse_duplicate_number name).2 = ""
     \/ exists ds, ds <> "" /\ all_digits ds = true /\
          (parse_duplicate_number name).2 = "(" ++ ds ++ ")").
Proof. apply parse_rebuilds. Qed.

Lemma parse_duplicate_number_rebuilds_example :
  exists r,
    "IMG 01 (12)" = r ++ (parse_duplicate_number "IMG 01 (12)").2 /\
    (parse_duplicate_number "IMG 01 (12)").1 = Str.strip r /\
    ((parse_duplicate_number "IMG 01 (12)").2 = ""
     \/ exists ds, ds <> "" /\ all_digits ds = true /\
          (parse_duplicate_number "IMG 01 (12)").2 = "(" ++ ds ++ ")").
Proof. apply (parse_duplicate_number_rebuilds "IMG 01 (12)"). reflexivity. Defined.

Lemma no_space_app (a b : string) :
  no_space (a ++ b) = no_space a && no_space b.
Proof.
  induction a as [|c a IH]; simpl; [reflexivity |]. now rewrite IH, andb_assoc.
Qed.

Lemma no_space_no_newline (s : string) : no_space s = true -> has_newline s = false.
Proof.
  induction s as [|c s IH]; simpl; [reflexivity |].
  intros [Hc Hs]%andb_true_iff. rewrite (IH Hs), orb_false_r.
  destruct (Ascii.eqb_spec c newline) as [-> |]; [discriminate | reflexivity].
Qed.

Lemma lstrip_no_space (s : string) : no_space s = true -> Str.lstrip s = s.
Proof.
  destruct s as [|c s]; simpl; [reflexivity |].
  intros [Hc _]%andb_true_iff. apply negb_true_iff in Hc. now rewrite Hc.
Qed.

Lemma rev_onto_no_space (s acc : string) :
  no_space (Str.rev_onto s acc) = no_space s && no_space acc.
Proof.
  revert acc. induction s as [|c s IH]; intros acc; simpl; [reflexivity |].
  rewrite IH. simpl. destruct (Str.is_space c), (no_space s); simpl; auto.
Qed.

Lemma rev_onto_rev_onto (s acc acc' : string) :
  Str.rev_onto (Str.rev_onto s acc) acc' = Str.rev_onto acc (s ++ acc').
Proof.
  revert acc acc'. induction s as [|c s IH]; intros acc acc'; simpl; [reflexivity |].
  rewrite IH. reflexivity.
Qed.

Lemma strip_no_space (s : string) : no_space s = true -> Str.strip s = s.
Proof.
  intros Hs. unfold Str.strip, Str.rstrip, Str.rev.
  rewrite (lstrip_no_space s Hs).
  rewrite lstrip_no_space by (rewrite rev_onto_no_space, Hs; reflexivity).
  rewrite rev_onto_rev_onto. simpl. apply append_nil_r.
Qed.

(** X21. For a media file whose name has no whitespace, the canonical
    sidecar path is the path of the media file followed by
    [.supplemental-metadata.json]: base name, duplicate suffix and extension
    put together give the file name back. *)
Theorem canonical_name_of_media_file (subdir file : string) :
  no_space file = true ->
  let media_name := (Path.splitext file).1 in
  let media_ext := (Path.splitext file).2 in
  let base_name := (parse_duplicate_number media_name).1 in
  let num_suffix := (parse_duplicate_number media_name).2 in
  base_name ++ num_suffix ++ media_ext = file /\
  preferred_path subdir base_name num_suffix media_ext
  = Path.join subdir (file ++ ".supplemental-metadata.json").
Proof.
  intros Hns media_name media_ext base_name num_suffix.
  assert (Hfile : base_name ++ num_suffix ++ media_ext = file).
  { subst base_name num_suffix media_ext media_name.
    pose proof (splitext_append file) as Happ.
    rewrite <- Happ, no_space_app in Hns. apply andb_true_iff in Hns as [Hmn _].
    destruct (parse_rebuilds _ (no_space_no_newline _ Hmn)) as (r & Heq & Hbase & _).
    rewrite Heq, no_space_app in Hmn. apply andb_true_iff in Hmn as [Hr _].
    rewrite Hbase, (strip_no_space r Hr), <- append_assoc, <- Heq. exact Happ. }
  split; [exact Hfile |].
  unfold preferred_path.
  replace (file ++ ".supplemental-metadata.json")
    with ((base_name ++ num_suffix ++ media_ext) ++ ".supplemental-metadata.json")
    by now rewrite Hfile.
  now rewrite !append_assoc.
Qed.

Lemma canonical_name_of_media_file_example :
  (parse_duplicate_number (Path.splitext "IMG_01(1).jpg").1).1
    ++ (parse_duplicate_number (Path.splitext "IMG_01(1).jpg").1).2
    ++ (Path.splitext "IMG_01(1).jpg").2 = "IMG_01(1).jpg".
Proof.
  apply (proj1 (canonical_name_of_media_file "d" "IMG_01(1).jpg" eq_refl)).
Defined.

(** With a blank before the suffix the canonical name is not the name of
    the media file, and two media files share it. *)
Lemma canonical_name_collision :
  preferred_path "d" (parse_duplicate_number "a (1)").1
    (parse_duplicate_number "a (1)").2 ".jpg"
  = preferred_path "d" (parse_duplicate_number "a(1)").1
      (parse_duplicate_number "a(1)").2 ".jpg".
Proof. reflexivity. Qed.

(** ** Distance zero *)

Lemma lev_row_zero (c1 : ascii) (s2 : string) (prev : list nat) (last k : nat) :
  nth_error (lev_row c1 s2 prev last) k = Some 0%nat ->
  nth_error prev k = Some 0%nat /\ String.get k s2 = Some c1.
Proof.
  revert prev last k. induction s2 as [|c2 s2 IH]; intros prev last k.
  - destruct prev; simpl; destruct k; discriminate.
  - destruct prev as [|pj [|pj1 prev]]; try (destruct k; discriminate).
    cbn [lev_row]. destruct k as [|k]; cbn [nth_error String.get].
    + intros Hv. assert (Hv' :
        Nat.min (Nat.min (S pj1) (S last))
          (pj + (if Ascii.eqb c1 c2 then 0 else 1)) = 0%nat) by congruence.
      destruct (Ascii.eqb_spec c1 c2) as [-> |]; [| lia].
      split; [f_equal; lia | reflexivity].
    + intros H. apply IH in H as [Hp Hg]. now split.
Qed.

Lemma take_S_get (k : nat) (s : string) (c : ascii) :
  String.get k s = Some c -> Str.take (S k) s = Str.take k s ++ String c "".
Proof.
  revert s. induction k as [|k IH]; intros [|x s]; simpl; try discriminate.
  - now intros [= ->].
  - intros H. now rewrite <- (IH s H).
Qed.

Lemma lev_rows_zero (s1 s2 pre : string) (i : nat) (prev : list nat) :
  (forall k, nth_error prev k = Some 0%nat -> Str.take k s2 = pre) ->
  forall k, nth_error (lev_rows s1 s2 i prev) k = Some 0%nat ->
            Str.take k s2 = pre ++ s1.
Proof.
  revert pre i prev. induction s1 as [|c1 s1 IH]; intros pre i prev Hinv k Hk.
  - simpl in Hk. rewrite append_nil_r. now apply Hinv.
  - simpl in Hk.
    replace (pre ++ String c1 s1) with ((pre ++ String c1 "") ++ s1)
      by now rewrite append_assoc.
    eapply IH; [| exact Hk].
    intros [|j] Hj; [discriminate |]. simpl in Hj.
    apply lev_row_zero in Hj as [Hp Hg].
    rewrite (take_S_get _ _ _ Hg). now rewrite (Hinv j Hp).
Qed.

Lemma nth_error_last (l : list nat) (m d : nat) :
  length l = S m -> nth_error l m = Some (List.last l d).
Proof.
  revert m. induction l as [|x l IH]; intros m Hlen; [discriminate |].
  destruct l as [|y l].
  - simpl in Hlen. now replace m with 0%nat by lia.
  - destruct m as [|m]; [simpl in Hlen; lia |].
    change (List.last (x :: y :: l) d) with (List.last (y :: l) d).
    simpl nth_error. apply IH. simpl in *. lia.
Qed.

Lemma take_all (s : string) : Str.take (String.length s) s = s.
Proof. induction s as [|c s IH]; simpl; [reflexivity | now rewrite IH]. Qed.

Lemma nth_error_seq_value (a n k v : nat) :
  nth_error (seq a n) k = Some v -> v = (a + k)%nat.
Proof.
  revert a k. induction n as [|n IH]; intros a [|k]; simpl; try discriminate.
  - intros [= <-]. lia.
  - intros H. apply IH in H. lia.
Qed.

Lemma seq_zero (n k : nat) : nth_error (seq 0 n) k = Some 0%nat -> k = 0%nat.
Proof. intros H. apply nth_error_seq_value in H. lia. Qed.

(** X22. The distance is 0 only for equal strings: with X2, two strings
    are at distance 0 exactly when they are equal. *)
Theorem levenshtein_distance_zero (s1 s2 : string) :
  levenshtein_distance s1 s2 = 0%nat -> s1 = s2.
Proof.
  intros H0.
  assert (Hb : within (String.length s1) (String.length s2) 0 /\
               within (String.length s2) (String.length s1) 0).
  { pose proof (lev_rows_last_within s1 s2) as H1.
    pose proof (lev_rows_last_within s2 s1) as H2.
    unfold levenshtein_distance in H0.
    destruct (String.length s1 <? String.length s2)%nat eqn:Hlt.
    - apply Nat.ltb_lt in Hlt.
      destruct (String.length s1 =? 0)%nat; [lia |].
      rewrite H0 in H2. unfold within, gap in *. lia.
    - apply Nat.ltb_ge in Hlt.
      destruct (String.length s2 =? 0)%nat eqn:Hz.
      + apply Nat.eqb_eq in Hz. unfold within, gap. lia.
      + rewrite H0 in H1. unfold within, gap in *. lia. }
  assert (Hlen : String.length s1 = String.length s2)
    by (destruct Hb as [Hb _]; unfold within, gap in Hb; lia).
  unfold levenshtein_distance in H0. rewrite Hlen, Nat.ltb_irrefl in H0.
  destruct (String.length s2 =? 0)%nat eqn:Hz.
  - apply Nat.eqb_eq in Hz. destruct s1, s2; simpl in *; congruence.
  - destruct (lev_rows_within s1 s2 0 (seq 0 (S (String.length s2))))
      as [Hrows _]; [apply length_seq | apply seq_within |].
    pose proof (nth_error_last _ _ 0%nat Hrows) as Hnth. rewrite H0 in Hnth.
    apply (lev_rows_zero s1 s2 "" 0) in Hnth.
    + rewrite take_all in Hnth. now rewrite Hnth.
    + intros k Hk. apply seq_zero in Hk as ->. now destruct s2.
Qed.

Lemma levenshtein_distance_zero_example : Str.lower "IMG_01.JPG" = "img_01.jpg".
Proof.
  apply (levenshtein_distance_zero (Str.lower "IMG_01.JPG") "img_01.jpg").
  reflexivity.
Defined.

(** ** The order of the probes *)

Lemma range_down_sorted (start stop step : Z) :
  1 <= step -> StronglySorted Z.gt (range_down start stop step).
Proof.
  intros Hstep. unfold range_down.
  generalize (Z.to_nat
    (if stop <? start then (start - stop - 1) / step + 1 else 0)). intros n.
  generalize 0%nat. induction n as [|n IH]; intros i; simpl; constructor.
  - apply IH.
  - apply Forall_forall. intros x Hx. apply list_elem_of_In in Hx.
    apply in_map_iff in Hx as (j & <- & Hj). apply in_seq in Hj. nia.
Qed.

(** X23. A truncation sweep goes from the longest prefix to the shortest:
    the lengths it probes are strictly decreasing, and when the name is at
    least as long as the minimum prefix the first probe is the whole name. *)
Theorem sweep_lengths_order (n : Z) (f : spec_float) (d k : Z) (ls : list Z) :
  sweep_lengths n f d = inr ls ->
  Float.int_mul n f = inr k ->
  StronglySorted Z.gt ls /\ (Z.max 20 k <= n -> head ls = Some n).
Proof.
  intros Hls Hk. unfold sweep_lengths in Hls. rewrite Hk in Hls.
  cbv beta iota delta [bind] in Hls. destruct (d =? 0); [discriminate |].
  injection Hls as <-. split; [apply range_down_sorted; lia |].
  intros Hn. unfold range_down.
  destruct (Z.max 20 k - 1 <? n) eqn:Hlt; [| apply Z.ltb_ge in Hlt; lia].
  assert (Hq : 0 <= (n - (Z.max 20 k - 1) - 1) / Z.max 1 ((n - Z.max 20 k) / d))
    by (apply Z.div_pos; lia).
  replace (Z.to_nat ((n - (Z.max 20 k - 1) - 1) / Z.max 1 ((n - Z.max 20 k) / d) + 1))
    with (S (Z.to_nat ((n - (Z.max 20 k - 1) - 1) / Z.max 1 ((n - Z.max 20 k) / d))))
    by lia.
  simpl. f_equal. lia.
Qed.

Lemma sweep_lengths_order_example :
  sweep_lengths 24 factor_07 20 = inr [24; 23; 22; 21; 20] /\
  Float.int_mul 24 factor_07 = inr 16 /\
  StronglySorted Z.gt [24; 23; 22; 21; 20] /\
  head [24; 23; 22; 21; 20] = Some 24.
Proof.
  split; [reflexivity |]. split; [reflexivity |].
  destruct (sweep_lengths_order 24 factor_07 20 16 [24; 23; 22; 21; 20]
              eq_refl eq_refl) as [Hsorted Hhead].
  split; [exact Hsorted | apply Hhead; lia].
Defined.

(** ** most_common *)

Lemma insert_count_sorted (x : string * nat) (l : list (string * nat)) :
  StronglySorted (fun a b => (b.2 <= a.2)%nat) l ->
  StronglySorted (fun a b => (b.2 <= a.2)%nat) (insert_count x l).
Proof.
  induction 1 as [|y l Hl IH Hy]; simpl; [repeat constructor |].
  destruct (x.2 <? y.2)%nat eqn:Hk.
  - apply Nat.ltb_lt in Hk. constructor; [exact IH |].
    rewrite (insert_count_perm x l). constructor; [lia | exact Hy].
  - apply Nat.ltb_ge in Hk. constructor; [now constructor |].
    constructor; [exact Hk |].
    eapply Forall_impl; [exact Hy |]. intros z Hz. simpl in Hz. lia.
Qed.

Lemma take_sorted {A : Type} (R : A -> A -> Prop) (n : nat) (l : list A) :
  StronglySorted R l -> StronglySorted R (take n l).
Proof.
  intros H. revert n. induction H as [|x l Hl IH Hx]; intros [|n]; simpl;
    try constructor.
  - apply IH.
  - rewrite Forall_forall in *. intros y Hy. apply Hx.
    eapply elem_of_sublist; [exact Hy | apply sublist_take].
Qed.

(** X24. [most_common] lists the counted suffixes by descending count:
    no item has a larger count than one before it, every item listed is
    an item of the counter, and at most [n] are listed. *)
Theorem most_common_descending (n : nat) (c : list (string * nat)) :
  StronglySorted (fun a b => (b.2 <= a.2)%nat) (most_common n c) /\
  (forall x, x ∈ most_common n c -> x ∈ c) /\
  (length (most_common n c) <= n)%nat.
Proof.
  unfold most_common. split; [| split].
  - apply take_sorted. induction c as [|x c IH]; simpl; [constructor |].
    now apply insert_count_sorted.
  - intros x Hx. rewrite <- (sort_count_perm c).
    eapply elem_of_sublist; [exact Hx | apply sublist_take].
  - rewrite length_take. lia.
Qed.

(** ** The match that is already canonical *)



